(** * Frequency generator page of the Simple DSO: translation of a target
  frequency into timer reload values

  Shallow embedding of [PageFrequencyGenerator.cpp] (the non-AVR build,
  with its two timer variants) and the properties of its numeric
  translation layer. *)

From Stdlib Require Import ZArith Lia Bool List QArith Qpower Qabs Lqa.
From Stdlib Require Import Floats.SpecFloat.
Import ListNotations.

Local Open Scope Z_scope.

(** ** The C type [float]: IEEE 754 binary32 *)

Definition float : Type := spec_float.

Module F32.

Definition prec : Z := 24.
Definition emax : Z := 128.

Definition div : float -> float -> float := SFdiv prec emax.
Definition mul : float -> float -> float := SFmul prec emax.
Definition add : float -> float -> float := SFadd prec emax.
Definition ltb : float -> float -> bool := SFltb.
Definition valid : float -> bool := valid_binary prec emax.

(** Conversion of an integer to [float], rounding to nearest even. *)
Definition of_Z (z : Z) : float := binary_normalize prec emax z 0 false.

(** The integral part of a float, rounding towards zero; infinities and
    NaN have none. *)
Definition trunc (f : float) : option Z :=
  match f with
  | S754_zero _ => Some 0
  | S754_finite s m e => Some (cond_Zopp s (Z.shiftl (Zpos m) e))
  | S754_infinity _ | S754_nan => None
  end.

Definition is_nan (f : float) : bool :=
  match f with S754_nan => true | _ => false end.

Definition is_finite (f : float) : bool :=
  match f with S754_zero _ | S754_finite _ _ _ => true | _ => false end.

(** Strictly positive and finite. *)
Definition is_pos_finite (f : float) : bool :=
  match f with S754_finite false _ _ => true | _ => false end.

End F32.

(** ** What C leaves undefined

    Converting a [float] to an unsigned integer type discards the
    fractional part; where the integral part does not fit the type the
    conversion is undefined, and so is an integer division by zero.  What
    the target does there is a parameter of the model: the result of the
    conversion, given the width and the float, read as a value of the
    type, and the result of the division, given the numerator. *)

Record undefined := mkUndefined {
  cast_out_of_range : Z -> float -> Z;
  quot_by_zero : Z -> Z
}.

Definition in_range (w : Z) (f : float) : bool :=
  match F32.trunc f with
  | Some z => (0 <=? z) && (z <? 2 ^ w)
  | None => false
  end.

Definition float_to_unsigned (undef : undefined) (w : Z) (f : float) : Z :=
  match F32.trunc f with
  | Some z => if (0 <=? z) && (z <? 2 ^ w) then z else cast_out_of_range undef w f mod 2 ^ w
  | None => cast_out_of_range undef w f mod 2 ^ w
  end.

Definition int64 (z : Z) : Z := (z + 2 ^ 63) mod 2 ^ 64 - 2 ^ 63.

(** Division of [long long] values. *)
Definition lldiv (undef : undefined) (a b : Z) : Z :=
  if b =? 0 then int64 (quot_by_zero undef a) else Z.quot a b.

(** The ARM targets saturate the conversion: NaN and negative values give
    0, values too large give the greatest value of the type.  The quotient
    by zero is taken as 0. *)
Definition arm_saturate : undefined :=
  mkUndefined
    (fun w f =>
       match f with
       | S754_infinity false | S754_finite false _ _ => 2 ^ w - 1
       | _ => 0
       end)
    (fun _ => 0).

(** ** State *)

Inductive waveform := WAVEFORM_SQUARE | WAVEFORM_SINE | WAVEFORM_TRIANGLE | WAVEFORM_SAWTOOTH.

Definition waveform_eqb (a b : waveform) : bool :=
match a, b with
| WAVEFORM_SQUARE, WAVEFORM_SQUARE
| WAVEFORM_SINE, WAVEFORM_SINE
| WAVEFORM_TRIANGLE, WAVEFORM_TRIANGLE
| WAVEFORM_SAWTOOTH, WAVEFORM_SAWTOOTH => true
| _, _ => false
end.

Record FrequencyInfoStruct := mkFrequencyInfo {
DividerInt : Z;                 (* uint32_t, ControlValue.DividerInt *)
PeriodMicros : Z;               (* uint32_t *)
Frequency : float;
FrequencyFactorTimes1000 : Z;   (* uint32_t *)
FrequencyFactorIndex : Z;       (* uint8_t *)
Waveform : waveform;
isOutputEnabled : bool
}.

Definition set_DividerInt (v : Z) (s : FrequencyInfoStruct) : FrequencyInfoStruct :=
mkFrequencyInfo v (PeriodMicros s) (Frequency s) (FrequencyFactorTimes1000 s)
  (FrequencyFactorIndex s) (Waveform s) (isOutputEnabled s).

Definition set_Frequency (v : float) (s : FrequencyInfoStruct) : FrequencyInfoStruct :=
mkFrequencyInfo (DividerInt s) (PeriodMicros s) v (FrequencyFactorTimes1000 s)
  (FrequencyFactorIndex s) (Waveform s) (isOutputEnabled s).

Definition set_Factor (idx fac : Z) (s : FrequencyInfoStruct) : FrequencyInfoStruct :=
mkFrequencyInfo (DividerInt s) (PeriodMicros s) (Frequency s) fac idx
  (Waveform s) (isOutputEnabled s).

Definition set_isOutputEnabled (v : bool) (s : FrequencyInfoStruct) : FrequencyInfoStruct :=
mkFrequencyInfo (DividerInt s) (PeriodMicros s) (Frequency s) (FrequencyFactorTimes1000 s)
  (FrequencyFactorIndex s) (Waveform s) v.

(** The two timer variants of the build: [STM32F30X] has a 32 bit reload
  register, the other one a 16 bit reload register and a prescaler. *)
Inductive timer := Timer32 | Timer16.

(** Calls of the timer driver, in the order they are made. *)
Inductive driver_call :=
| Synth_Timer32_SetReloadValue (reload : Z)
| Synth_Timer16_SetReloadValue (reload prescaler : Z)
| Synth_Timer_Start
| Synth_Timer_Stop.

Definition uint32 (z : Z) : Z := z mod 2 ^ 32.
Definition uint16 (z : Z) : Z := z mod 2 ^ 16.
Definition uint8 (z : Z) : Z := z mod 2 ^ 8.

(** ** setFrequencyFactor *)

Fixpoint factor_loop (n : nat) (tFactor : Z) : Z :=
match n with
| O => tFactor
| S k => factor_loop k (uint32 (tFactor * 1000))
end.

Definition setFrequencyFactor (aIndexValue : Z) (s : FrequencyInfoStruct) : FrequencyInfoStruct :=
set_Factor (uint8 aIndexValue) (factor_loop (Z.to_nat aIndexValue) 1) s.

(** ** setWaveformFrequency *)

Section Translator.

Variable undef : undefined.
Variable tim : timer.

(** [tPeriod]: the period in timer ticks, as a float. *)
Definition tPeriod (s : FrequencyInfoStruct) : float :=
  F32.div (F32.of_Z (lldiv undef 36000000000 (FrequencyFactorTimes1000 s))) (Frequency s).

(** The reload value and the prescaler for a tick count that is at
    least 2. *)
Definition prescaler_of (tPeriodInt : Z) : Z := uint32 (Z.shiftr tPeriodInt 16 + 1).

Definition reload_of (tPeriodInt : Z) : Z :=
  let tPrescalerValue := prescaler_of tPeriodInt in
  if 1 <? tPrescalerValue then Z.quot tPeriodInt tPrescalerValue else tPeriodInt.

Definition setWaveformFrequency (s : FrequencyInfoStruct)
  : FrequencyInfoStruct * list driver_call * bool :=
  if waveform_eqb (Waveform s) WAVEFORM_SQUARE then
    let tPeriodInt := float_to_unsigned undef 32 (tPeriod s) in
    let hasError := tPeriodInt <? 2 in
    let tPeriodInt := if hasError then 2 else tPeriodInt in
    match tim with
    | Timer32 =>
        (set_DividerInt tPeriodInt s, [Synth_Timer32_SetReloadValue tPeriodInt], hasError)
    | Timer16 =>
        let tPrescalerValue := prescaler_of tPeriodInt in
        let tReload := reload_of tPeriodInt in
        (set_DividerInt (uint32 (tReload * tPrescalerValue)) s,
         [Synth_Timer16_SetReloadValue tReload tPrescalerValue], hasError)
    end
  else (s, [], true).

End Translator.

(** ** setFrequency *)

Definition f1 : float := F32.of_Z 1.
Definition f1000 : float := F32.of_Z 1000.

(** The loop [while (aValue > 1000) { aValue /= 1000; tIndex++; }];
  [None] when it has not ended after [fuel] tests of its condition. *)
Fixpoint normalize_loop (fuel : nat) (aValue : float) (tIndex : Z) : option (float * Z) :=
match fuel with
| O => None
| S k =>
    if F32.ltb f1000 aValue
    then normalize_loop k (F32.div aValue f1000) (uint8 (tIndex + 1)) (* tIndex++ *)
    else Some (aValue, tIndex)
end.

Section Controller.

Variable undef : undefined.
Variable tim : timer.
(** [pow] and [log10f] of the C library, the result of [pow] rounded
    to [float] by the assignment. *)
Variable pow : float -> float -> float.
Variable log10f : float -> float.

Definition setFrequency (fuel : nat) (aValue : float) (s : FrequencyInfoStruct)
  : option (FrequencyInfoStruct * list driver_call) :=
  if waveform_eqb (Waveform s) WAVEFORM_SQUARE then
    match normalize_loop fuel aValue 1 with
    | None => None
    | Some (aValue, tIndex) =>
        let '(aValue, tIndex) :=
          if F32.ltb aValue f1 then (F32.mul aValue f1000, 0) else (aValue, tIndex) in
        let s := set_Frequency aValue (setFrequencyFactor tIndex s) in
        Some (fst (setWaveformFrequency undef tim s))
    end
  else Some (fst (setWaveformFrequency undef tim (set_Frequency aValue s))).

(** *** What the page shows *)

Record readout := mkReadout {
  shownFrequency : float;    (* printed with "%9.3f" and the factor character *)
  shownPeriod : float;       (* printed with "%10.3f" *)
  shownMilli : bool;         (* unit character: 'm' instead of micro *)
  sliderValue : Z            (* uint16_t, given to setActualValueAndDrawBar *)
}.

Definition printFrequencyAndPeriod (s : FrequencyInfoStruct) (is10HzRange : bool) : readout :=
  let tPeriodFloat := F32.of_Z (DividerInt s) in
  let tFrequency :=
    F32.div (F32.of_Z (lldiv undef 36000000000 (FrequencyFactorTimes1000 s))) tPeriodFloat in
  let tPeriodMicros := F32.div tPeriodFloat (F32.of_Z 36) in
  let milli := F32.ltb (F32.of_Z 10000) tPeriodMicros in
  let tPeriodMicros := if milli then F32.div tPeriodMicros f1000 else tPeriodMicros in
  let tSliderValue :=
    float_to_unsigned undef 16 (F32.mul (log10f (Frequency s)) (F32.of_Z 100)) in
  let tSliderValue := if is10HzRange then uint16 (tSliderValue - 100) else tSliderValue in
  mkReadout tFrequency tPeriodMicros milli tSliderValue.

(** *** The page: the global variables and what went out *)

Record page := mkPage {
  sFrequencyInfo : FrequencyInfoStruct;
  is10HzRange : bool;
  ActiveRange : Z;                 (* value of ActiveTouchButtonFrequencyRange *)
  calls : list driver_call;        (* driver calls so far, oldest first *)
  shown : option readout           (* last output of printFrequencyAndPeriod *)
}.

Definition INDEX_OF_10HZ : Z := 2.
Definition BUTTON_INDEX_SELECTED_INITIAL : Z := 2.

(** The globals before any handler has run. *)
Definition boot : page :=
  mkPage (mkFrequencyInfo 0 0 (S754_zero false) 0 0 WAVEFORM_SQUARE false)
    true BUTTON_INDEX_SELECTED_INITIAL [] None.

Definition with_info (s : FrequencyInfoStruct) (p : page) : page :=
  mkPage s (is10HzRange p) (ActiveRange p) (calls p) (shown p).

Definition emit (cs : list driver_call) (p : page) : page :=
  mkPage (sFrequencyInfo p) (is10HzRange p) (ActiveRange p) (calls p ++ cs) (shown p).

Definition print (p : page) : page :=
  mkPage (sFrequencyInfo p) (is10HzRange p) (ActiveRange p) (calls p)
    (Some (printFrequencyAndPeriod (sFrequencyInfo p) (is10HzRange p))).

Definition SetWaveformFrequencyAndPrintValues (p : page) : page * bool :=
  let '(s, cs, hasError) := setWaveformFrequency undef tim (sFrequencyInfo p) in
  (print (emit cs (with_info s p)), hasError).

Definition initFrequencyGeneratorPage (fuel : nat) (p : page) : option page :=
  let s := sFrequencyInfo p in
  let s := mkFrequencyInfo (DividerInt s) (PeriodMicros s) (Frequency s)
             (FrequencyFactorTimes1000 s) (FrequencyFactorIndex s) WAVEFORM_SQUARE
             (isOutputEnabled s) in
  match setFrequency fuel (F32.of_Z 200) s with
  | None => None
  | Some (s, cs) => Some (emit cs (with_info (set_isOutputEnabled true s) p))
  end.

Definition FREQ_SLIDER_MAX_VALUE : Z := 300.

Definition doFrequencySlider (aValue : Z) (p : page) : page :=
  let tValue := F32.of_Z aValue in
  let tValue := F32.div tValue (F32.of_Z (Z.quot FREQ_SLIDER_MAX_VALUE 3)) in
  let tValue := if is10HzRange p then F32.add tValue f1 else tValue in
  let s := set_Frequency (pow (F32.of_Z 10) tValue) (sFrequencyInfo p) in
  fst (SetWaveformFrequencyAndPrintValues (with_info s p)).

Definition int16 (z : Z) : Z := (z + 2 ^ 15) mod 2 ^ 16 - 2 ^ 15.

Definition doSetFixedFrequency (aValue : Z) (p : page) : page * bool :=
  let aValue := if is10HzRange p then int16 (aValue * 10) else aValue in
  let s := set_Frequency (F32.of_Z aValue) (sFrequencyInfo p) in
  SetWaveformFrequencyAndPrintValues (with_info s p).

Definition doChangeFrequencyRange (aValue : Z) (p : page) : page :=
  if ActiveRange p =? aValue then p
  else
    let is10 := aValue =? INDEX_OF_10HZ in
    let idx := if INDEX_OF_10HZ <=? aValue then aValue - 1 else aValue in
    let s := setFrequencyFactor idx (sFrequencyInfo p) in
    fst (SetWaveformFrequencyAndPrintValues
           (mkPage s is10 aValue (calls p) (shown p))).

(** Number entry of the build without local display. *)
Definition doSetFrequency (fuel : nat) (aValue : float) (p : page) : option page :=
  match setFrequency fuel aValue (sFrequencyInfo p) with
  | None => None
  | Some (s, cs) => Some (print (emit cs (with_info s p)))
  end.

(** Number entry of the build with local display: [tNumber] is what the
    number pad returned, NaN on cancel. *)
Definition doGetFrequency (tNumber : float) (p : page) : page :=
  let s := sFrequencyInfo p in
  let s := if negb (F32.is_nan tNumber) then set_Frequency tNumber s else s in
  (* drawFrequencyGeneratorPage ends with printFrequencyAndPeriod *)
  fst (SetWaveformFrequencyAndPrintValues (print (with_info s p))).

Definition doFrequencyGeneratorStartStop (aValue : bool) (p : page) : page :=
  let p := with_info (set_isOutputEnabled aValue (sFrequencyInfo p)) p in
  if aValue
  then fst (SetWaveformFrequencyAndPrintValues (emit [Synth_Timer_Start] p))
  else emit [Synth_Timer_Stop] p.

End Controller.


(** ** Example states *)

(** Square wave, 2000 Hz. *)
Definition info_2000Hz : FrequencyInfoStruct :=
  mkFrequencyInfo 0 0 (F32.of_Z 2000) 1000 1 WAVEFORM_SQUARE true.

(** Square wave, 1 Hz. *)
Definition info_1Hz : FrequencyInfoStruct :=
  mkFrequencyInfo 0 0 (F32.of_Z 1) 1000 1 WAVEFORM_SQUARE true.

(** Square wave, 1 mHz. *)
Definition info_1mHz : FrequencyInfoStruct :=
  mkFrequencyInfo 0 0 (F32.of_Z 1) 1 0 WAVEFORM_SQUARE true.

(** Sine, 2000 Hz, with a reload value left from before. *)
Definition info_sine : FrequencyInfoStruct :=
  mkFrequencyInfo 18000 0 (F32.of_Z 2000) 1000 1 WAVEFORM_SINE true.

(** The prescaler selectors the specification names. *)
Definition selectors : list Z := [1; 8; 64; 256; 1024].

(** The tick count after the lower clip. *)
Definition clipped_ticks (undef : undefined) (s : FrequencyInfoStruct) : Z :=
  let t := float_to_unsigned undef 32 (tPeriod undef s) in
  if t <? 2 then 2 else t.

(** Square wave, 2 kHz. *)
Definition info_2kHz : FrequencyInfoStruct :=
  mkFrequencyInfo 0 0 (F32.of_Z 2) 1000000 2 WAVEFORM_SQUARE true.

(** The factors of the four decades mHz, Hz, kHz, MHz. *)
Definition decade_factors : list Z := [1; 1000; 1000000; 1000000000].

(** The page after [initFrequencyGeneratorPage]: 200 Hz, 10 Hz range. *)
Definition page_200Hz : page :=
  mkPage (mkFrequencyInfo 180000 0 (F32.of_Z 200) 1000 1 WAVEFORM_SQUARE true)
    true BUTTON_INDEX_SELECTED_INITIAL [Synth_Timer32_SetReloadValue 180000] None.

(** A [log10f] that is right at 5: the float next to log10(5). *)
Definition log10f_at_5 : float -> float := fun _ => S754_finite false 11726771 (-24).

(** ** The rational value of a float

    [F2Q] is the value of a finite float, 0 for the others. *)
Definition pow2 (e : Z) : Q := (2 ^ e)%Q.

Definition F2Q (f : float) : Q :=
  match f with
  | S754_finite s m e => (inject_Z (cond_Zopp s (Zpos m)) * pow2 e)%Q
  | _ => 0%Q
  end.

(** The unit roundoff the proofs work with: one unit in the last place
    of a normal float, relative to the float. *)
Definition ulp_rel : Q := 1 # 8388608.

(** ** The claims as the specification words them *)

(** C1, as the specification words it: the stored reload is the
    truncated tick count whenever that count is not below 2. *)
Definition lower_clip_as_specified (undef : undefined) (s : FrequencyInfoStruct) : Prop :=
  forall ticks, F32.trunc (tPeriod undef s) = Some ticks ->
    let '(s', _, clipped) := setWaveformFrequency undef Timer32 s in
    if ticks <? 2 then clipped = true /\ DividerInt s' = 2
    else clipped = false /\ DividerInt s' = ticks.

(** C5, as the specification words it: the prescaler given to the driver
    is one of the selectors. *)
Definition prescaler_is_selector (undef : undefined) (s : FrequencyInfoStruct) : Prop :=
  forall reload prescaler,
    In (Synth_Timer16_SetReloadValue reload prescaler)
       (snd (fst (setWaveformFrequency undef Timer16 s))) ->
    In prescaler selectors.

(** C3, as the specification words it: the loop runs while the value is
    at least 1000. *)
Fixpoint normalize_as_specified (fuel : nat) (f : float) (decade_index : Z)
  : option (float * Z) :=
  match fuel with
  | O => None
  | S k =>
      if SFleb f1000 f
      then normalize_as_specified k (F32.div f f1000) (decade_index + 1)
      else Some (f, decade_index)
  end.

Definition autoscale_as_specified (undef : undefined) (tim : timer)
  (f : float) (s : FrequencyInfoStruct) : Prop :=
  forall fuel v idx, normalize_as_specified fuel f 1 = Some (v, idx) ->
    exists s' cs, setFrequency undef tim fuel f s = Some (s', cs) /\
      Frequency s' = (if F32.ltb v f1 then F32.mul v f1000 else v) /\
      FrequencyFactorIndex s' = (if F32.ltb v f1 then 0 else idx).

(** C8, as the specification words it, on the 32 bit timer (the
    prescaler is 1, the effective reload is the stored reload). *)
Definition quantization_as_specified (undef : undefined) (log10f : float -> float)
  (s : FrequencyInfoStruct) : Prop :=
  let '(s', _, clipped) := setWaveformFrequency undef Timer32 s in
  clipped = false ->
  let realized := F2Q (shownFrequency (printFrequencyAndPeriod undef log10f s' false)) in
  let target := F2Q (Frequency s) in
  (Qabs (realized - target * inject_Z (FrequencyFactorTimes1000 s) / 1000) / target
   <= 1 / inject_Z (DividerInt s'))%Q.

(** C9, as the specification words it: a number entry that is not
    strictly positive and finite leaves the state as it is. *)
Definition invalid_entry_ignored : Prop :=
  forall undef tim log10f fuel v p p',
    F32.is_pos_finite v = false ->
    doSetFrequency undef tim log10f fuel v p = Some p' ->
    sFrequencyInfo p' = sFrequencyInfo p.

(** ** Definitions for the proofs about [float] *)

(** What [binary_round_aux] builds from the mantissa and the exponent it arrives at. *)
Definition build (sx : bool) (m e : Z) : spec_float :=
  match m with
  | Z0 => S754_zero sx
  | Zpos p => if e <=? F32.emax - F32.prec then S754_finite sx p e else S754_infinity sx
  | Zneg _ => S754_nan
  end.

(** The mantissa and exponent [binary_round_aux] arrives at. *)
Record rounded (mx ex m e : Z) : Prop := {
  rounded_m_nonneg : 0 <= m;
  rounded_e_ge : ex <= e;
  rounded_lower : (m - 1) * 2 ^ (e - ex) <= mx;
  rounded_upper : mx + 1 <= (m + 1) * 2 ^ (e - ex);
  rounded_e_le : e <= Z.max ex (fexp F32.prec F32.emax (Zdigits2 mx + ex + 1));
  rounded_digits : 0 < m -> Zdigits2 m <= 24;
  rounded_magnitude : 0 < m -> 0 < mx ->
    Zdigits2 m + e <= Z.max (Zdigits2 mx + ex) (-149) + 1;
  rounded_canonical : 0 < m -> ex <= fexp F32.prec F32.emax (Zdigits2 mx + ex) ->
    fexp F32.prec F32.emax (Zdigits2 m + e) = e
}.

Definition mag (f : spec_float) : Z :=
  match f with S754_finite _ m e => Zdigits2 (Zpos m) + e | _ => -149 end.

Definition nonneg_finite (f : spec_float) : bool :=
  match f with S754_zero false | S754_finite false _ _ => true | _ => false end.

Definition next_index (i : Z) : Z := uint8 (i + 1).

(** [k] divisions by 1000. *)
Fixpoint div1000 (k : nat) (v : spec_float) : spec_float :=
  match k with
  | O => v
  | S j => div1000 j (F32.div v f1000)
  end.
(** ** The handlers as the event loop calls them *)

(** The captions, and values, of the fixed frequency buttons. *)
Definition FixedFrequencyButtonCaptions : list Z :=
  [1; 2; 5; 10; 20; 50; 100; 200; 500; 1000].

(** The exponent [doFrequencySlider] gives to [pow]. *)
Definition slider_exponent (is10HzRange : bool) (aValue : Z) : float :=
  let tValue := F32.of_Z aValue in
  let tValue := F32.div tValue (F32.of_Z (Z.quot FREQ_SLIDER_MAX_VALUE 3)) in
  if is10HzRange then F32.add tValue f1 else tValue.

(** The callbacks the page registers with its slider and buttons, with
    the value each is called with.  The number entry is [SetFrequency] in
    the build without local display and [GetFrequency] in the one with. *)
Inductive event :=
| FrequencySlider (aValue : Z)
| SetFixedFrequency (aValue : Z)
| ChangeFrequencyRange (aValue : Z)
| SetFrequency (aValue : float)
| GetFrequency (tNumber : float)
| StartStop (aValue : bool).

Section Dispatcher.

Variable undef : undefined.
Variable tim : timer.
Variable pow : float -> float -> float.
Variable log10f : float -> float.
Variable fuel : nat.

Definition handle (e : event) (p : page) : option page :=
  match e with
  | FrequencySlider aValue => Some (doFrequencySlider undef tim pow log10f aValue p)
  | SetFixedFrequency aValue => Some (fst (doSetFixedFrequency undef tim log10f aValue p))
  | ChangeFrequencyRange aValue => Some (doChangeFrequencyRange undef tim log10f aValue p)
  | SetFrequency aValue => doSetFrequency undef tim log10f fuel aValue p
  | GetFrequency tNumber => Some (doGetFrequency undef tim log10f tNumber p)
  | StartStop aValue => Some (doFrequencyGeneratorStartStop undef tim log10f aValue p)
  end.

(** The handlers called for a sequence of events, oldest first. *)
Fixpoint run (es : list event) (p : page) : option page :=
  match es with
  | [] => Some p
  | e :: es' =>
      match handle e p with
      | Some p' => run es' p'
      | None => None
      end
  end.

End Dispatcher.

(** What every reload given to the driver satisfies. *)
Definition call_ok (c : driver_call) : Prop :=
  match c with
  | Synth_Timer32_SetReloadValue reload => 2 <= reload < 2 ^ 32
  | Synth_Timer16_SetReloadValue reload prescaler =>
      2 <= reload < 65536 /\ 1 <= prescaler <= 65536
  | Synth_Timer_Start | Synth_Timer_Stop => True
  end.

(** The state of a page whose frequency has been translated. *)
Record page_ok (p : page) : Prop := {
  ok_square : Waveform (sFrequencyInfo p) = WAVEFORM_SQUARE;
  ok_reload : 2 <= DividerInt (sFrequencyInfo p) < 2 ^ 32;
  ok_calls : Forall call_ok (calls p)
}.

(** The check of [slider_exponent] at one slider value: a finite float
    that is not negative and within 2^-22 of the value / 100, plus 1 in
    the 10 Hz range. *)
Definition slider_exponent_near (is10HzRange : bool) (aValue : Z) : bool :=
  let t := slider_exponent is10HzRange aValue in
  let exact := (inject_Z aValue / 100 + (if is10HzRange then 1 else 0))%Q in
  F32.is_finite t &&
  Qle_bool (exact - (1 # 4194304)) (F2Q t) &&
  Qle_bool (F2Q t) (exact + (1 # 4194304)).

(** ** The position computed back from a slider value *)

(** The slider position [printFrequencyAndPeriod] computes back, after
    [doFrequencySlider] has stored the frequency for the slider value
    [aValue] and called [SetWaveformFrequencyAndPrintValues]. *)
Definition slider_round_trip (undef : undefined) (tim : timer)
  (pow : float -> float -> float) (log10f : float -> float)
  (aValue : Z) (p : page) : option Z :=
  option_map sliderValue (shown (doFrequencySlider undef tim pow log10f aValue p)).


(** The results of a correctly rounded [pow] and [log10f] where the
    examples need them: [pow (10, 1) = 10] and [log10f (10) = 1];
    [pow (10, 0.37f)] and [log10f] of it. *)
Definition pow_at_1 : float -> float -> float := fun _ _ => F32.of_Z 10.
Definition log10f_at_10 : float -> float := fun _ => F32.of_Z 1.
Definition pow_at_037 : float -> float -> float :=
  fun _ _ => S754_finite false 9832408 (-22).
Definition log10f_at_037 : float -> float :=
  fun _ => S754_finite false 12415139 (-25).

(** A [log10f] that is one unit in the last place low at 10. *)
Definition log10f_low_at_10 : float -> float :=
  fun _ => S754_finite false 16777215 (-24).

(** The page of [page_200Hz] with the range Hz selected. *)
Definition page_Hz : page :=
  mkPage (sFrequencyInfo page_200Hz) false 1 (calls page_200Hz) None.

(** ** Facts about binary32 arithmetic *)

Module Binary32.

(** *** Number of binary digits *)

Lemma digits2_pos_size p : digits2_pos p = Pos.size p.
Proof. induction p; simpl; congruence. Qed.

Lemma Zdigits2_log2 m : 0 < m -> Zdigits2 m = Z.log2 m + 1.
Proof.
  destruct m as [|p|p]; try lia. intros _. simpl.
  rewrite digits2_pos_size.
  destruct p; simpl; lia.
Qed.

Lemma Zdigits2_nonneg m : 0 <= Zdigits2 m.
Proof. destruct m; simpl; lia. Qed.

Lemma Zdigits2_bounds m : 0 < m -> 2 ^ (Zdigits2 m - 1) <= m < 2 ^ Zdigits2 m.
Proof.
  intros H. rewrite Zdigits2_log2 by exact H.
  replace (Z.log2 m + 1 - 1) with (Z.log2 m) by lia.
  pose proof (Z.log2_spec m H). rewrite <- Z.add_1_r in *. lia.
Qed.

Lemma Zdigits2_le m n : 0 <= m <= n -> Zdigits2 m <= Zdigits2 n.
Proof.
  intros [H0 H1].
  destruct (Z.eq_dec m 0) as [->|Hm]; [apply Zdigits2_nonneg|].
  rewrite !Zdigits2_log2 by lia.
  pose proof (Z.log2_le_mono m n H1). lia.
Qed.

(** number of digits from a strict upper bound *)
Lemma Zdigits2_lt_pow2 m k : 0 <= m < 2 ^ k -> 0 <= k -> Zdigits2 m <= k.
Proof.
  intros [H0 H1] Hk.
  destruct (Z.eq_dec m 0) as [->|Hm]; [simpl; lia|].
  rewrite Zdigits2_log2 by lia.
  assert (Z.log2 m < k) by (apply Z.log2_lt_pow2; lia). lia.
Qed.

Lemma Zdigits2_ge_pow2 m k : 2 ^ k <= m -> 0 <= k -> k + 1 <= Zdigits2 m.
Proof.
  intros H Hk.
  assert (0 < 2 ^ k) by (apply Z.pow_pos_nonneg; lia).
  rewrite Zdigits2_log2 by lia.
  assert (k <= Z.log2 m) by (apply Z.log2_le_pow2; lia). lia.
Qed.

Lemma Zdigits2_succ m : 0 <= m -> Zdigits2 (m + 1) <= Zdigits2 m + 1.
Proof.
  intros H. destruct (Z.eq_dec m 0) as [->|Hm]; [simpl; lia|].
  apply Zdigits2_lt_pow2; [|pose proof (Zdigits2_nonneg m); lia].
  pose proof (Zdigits2_bounds m ltac:(lia)) as [_ Hb].
  rewrite Z.pow_add_r by (pose proof (Zdigits2_nonneg m); lia). lia.
Qed.

Lemma Zdigits2_div_pow2 m n : 0 <= m -> 0 <= n ->
  Zdigits2 (m / 2 ^ n) = Z.max 0 (Zdigits2 m - n).
Proof.
  intros Hm Hn.
  assert (Hp : 0 < 2 ^ n) by (apply Z.pow_pos_nonneg; lia).
  destruct (Z.eq_dec m 0) as [->|Hm0].
  { rewrite Z.div_0_l by lia. simpl. lia. }
  pose proof (Zdigits2_bounds m ltac:(lia)) as [Hlo Hhi].
  pose proof (Zdigits2_nonneg m) as Hd.
  destruct (Z_lt_le_dec n (Zdigits2 m)) as [Hlt|Hge].
  - (* some digits remain *)
    assert (Hq : 2 ^ (Zdigits2 m - n - 1) <= m / 2 ^ n < 2 ^ (Zdigits2 m - n)).
    { split.
      - apply Z.div_le_lower_bound; [exact Hp|].
        rewrite <- Z.pow_add_r by lia.
        replace (n + (Zdigits2 m - n - 1)) with (Zdigits2 m - 1) by lia. exact Hlo.
      - apply Z.div_lt_upper_bound; [exact Hp|].
        rewrite <- Z.pow_add_r by lia.
        replace (n + (Zdigits2 m - n)) with (Zdigits2 m) by lia. exact Hhi. }
    assert (Zdigits2 (m / 2 ^ n) <= Zdigits2 m - n)
      by (apply Zdigits2_lt_pow2; lia).
    assert (Zdigits2 m - n - 1 + 1 <= Zdigits2 (m / 2 ^ n))
      by (apply Zdigits2_ge_pow2; lia).
    lia.
  - assert (m / 2 ^ n = 0) as ->.
    { apply Z.div_small. split; [lia|].
      apply Z.lt_le_trans with (1 := Hhi). apply Z.pow_le_mono_r; lia. }
    simpl. lia.
Qed.

(** shifting right *)
Lemma shr_1_m mrs : 0 <= shr_m mrs -> shr_m (shr_1 mrs) = shr_m mrs / 2.
Proof.
  destruct mrs as [m r s]. simpl. intros H.
  destruct m as [|p|p]; try lia; try reflexivity.
  destruct p; simpl shr_m.
  - rewrite Pos2Z.inj_xI. apply Z.div_unique with (r := 1); lia.
  - rewrite Pos2Z.inj_xO. apply Z.div_unique with (r := 0); lia.
  - reflexivity.
Qed.

Lemma iter_shr_1_m p : forall mrs, 0 <= shr_m mrs ->
  shr_m (iter_pos shr_1 p mrs) = shr_m mrs / 2 ^ Zpos p.
Proof.
  induction p as [p IH|p IH|]; intros mrs H; simpl iter_pos.
  - assert (H1 : 0 <= shr_m (shr_1 mrs))
      by (rewrite shr_1_m by exact H; apply Z.div_pos; lia).
    assert (H2 : 0 <= shr_m (iter_pos shr_1 p (shr_1 mrs)))
      by (rewrite IH by exact H1; apply Z.div_pos; [exact H1|apply Z.pow_pos_nonneg; lia]).
    rewrite IH by exact H2. rewrite IH by exact H1. rewrite shr_1_m by exact H.
    rewrite !Z.div_div by (try apply Z.pow_pos_nonneg; lia).
    f_equal. rewrite <- Z.pow_add_r by lia.
    change 2 with (2 ^ 1) at 1. rewrite <- Z.pow_add_r by lia. f_equal. lia.
  - assert (H2 : 0 <= shr_m (iter_pos shr_1 p mrs))
      by (rewrite IH by exact H; apply Z.div_pos; [exact H|apply Z.pow_pos_nonneg; lia]).
    rewrite IH by exact H2. rewrite IH by exact H.
    rewrite !Z.div_div by (try apply Z.pow_pos_nonneg; lia).
    f_equal. rewrite <- Z.pow_add_r by lia. f_equal. lia.
  - rewrite shr_1_m by exact H. reflexivity.
Qed.

Lemma shr_record_of_loc_m m l : shr_m (shr_record_of_loc m l) = m.
Proof. destruct l as [|[| |]]; reflexivity. Qed.

Lemma shr_fexp_spec m e l : 0 <= m ->
  let e' := Z.max e (fexp F32.prec F32.emax (Zdigits2 m + e)) in
  shr_m (fst (shr_fexp F32.prec F32.emax m e l)) = m / 2 ^ (e' - e) /\
  snd (shr_fexp F32.prec F32.emax m e l) = e'.
Proof.
  intros Hm e'. unfold shr_fexp, shr.
  destruct (fexp F32.prec F32.emax (Zdigits2 m + e) - e) as [|p|p] eqn:E; simpl fst; simpl snd.
  - replace (e' - e) with 0 by lia. rewrite Z.div_1_r.
    split; [apply shr_record_of_loc_m | lia].
  - rewrite iter_shr_1_m by (rewrite shr_record_of_loc_m; exact Hm).
    rewrite shr_record_of_loc_m.
    replace (e' - e) with (Z.pos p) by lia. split; [reflexivity | lia].
  - replace (e' - e) with 0 by lia. rewrite Z.div_1_r.
    split; [apply shr_record_of_loc_m | lia].
Qed.

Lemma round_nearest_even_cases m l :
  round_nearest_even m l = m \/ round_nearest_even m l = m + 1.
Proof.
  destruct l as [|[| |]]; simpl; auto. destruct (Z.even m); auto.
Qed.


Lemma binary_round_aux_spec sx mx ex lx : 0 <= mx ->
  exists m2,
    let e1 := Z.max ex (fexp F32.prec F32.emax (Zdigits2 mx + ex)) in
    let m1 := mx / 2 ^ (e1 - ex) in
    let e3 := Z.max e1 (fexp F32.prec F32.emax (Zdigits2 m2 + e1)) in
    (m2 = m1 \/ m2 = m1 + 1) /\
    binary_round_aux F32.prec F32.emax sx mx ex lx = build sx (m2 / 2 ^ (e3 - e1)) e3.
Proof.
  intros Hm. unfold binary_round_aux.
  pose proof (shr_fexp_spec mx ex lx Hm) as [H1 H2]. cbv zeta in H1, H2.
  destruct (shr_fexp F32.prec F32.emax mx ex lx) as [mrs' e'] eqn:E1. simpl in H1, H2.
  set (m2 := round_nearest_even (shr_m mrs') (loc_of_shr_record mrs')).
  exists m2. cbv zeta.
  assert (Hm1 : 0 <= shr_m mrs')
    by (rewrite H1; apply Z.div_pos; [exact Hm | apply Z.pow_pos_nonneg; lia]).
  assert (Hc : m2 = shr_m mrs' \/ m2 = shr_m mrs' + 1)
    by apply round_nearest_even_cases.
  assert (Hm2 : 0 <= m2) by lia.
  pose proof (shr_fexp_spec m2 e' loc_Exact Hm2) as [H3 H4]. cbv zeta in H3, H4.
  destruct (shr_fexp F32.prec F32.emax m2 e' loc_Exact) as [mrs'' e''] eqn:E2. simpl in H3, H4.
  subst e' e''. rewrite <- H1. split; [exact Hc|].
  rewrite H3. unfold build. reflexivity.
Qed.

Lemma fexp_eq k : fexp F32.prec F32.emax k = Z.max (k - 24) (-149).
Proof. reflexivity. Qed.

Lemma fexp_mono a b : a <= b -> fexp F32.prec F32.emax a <= fexp F32.prec F32.emax b.
Proof. rewrite !fexp_eq. lia. Qed.


Lemma div_pow2_bounds a n : 0 <= a -> 0 <= n ->
  a / 2 ^ n * 2 ^ n <= a < (a / 2 ^ n + 1) * 2 ^ n.
Proof.
  intros Ha Hn.
  assert (Hp : 0 < 2 ^ n) by (apply Z.pow_pos_nonneg; lia).
  pose proof (Z.div_mod a (2 ^ n) ltac:(lia)).
  pose proof (Z.mod_pos_bound a (2 ^ n) Hp). nia.
Qed.

Lemma binary_round_aux_rounded sx mx ex lx : 0 <= mx ->
  exists m e, binary_round_aux F32.prec F32.emax sx mx ex lx = build sx m e /\ rounded mx ex m e.
Proof.
  intros Hm.
  destruct (binary_round_aux_spec sx mx ex lx Hm) as [m2 [Hc Hb]]. cbv zeta in Hc, Hb.
  set (d := Zdigits2 mx) in *.
  set (e1 := Z.max ex (fexp F32.prec F32.emax (d + ex))) in *.
  set (m1 := mx / 2 ^ (e1 - ex)) in *.
  set (e3 := Z.max e1 (fexp F32.prec F32.emax (Zdigits2 m2 + e1))) in *.
  exists (m2 / 2 ^ (e3 - e1)), e3. split; [exact Hb|].
  assert (Hn1 : 0 <= e1 - ex) by lia.
  assert (Hn2 : 0 <= e3 - e1) by lia.
  assert (Hp1 : 0 < 2 ^ (e1 - ex)) by (apply Z.pow_pos_nonneg; lia).
  assert (Hp2 : 0 < 2 ^ (e3 - e1)) by (apply Z.pow_pos_nonneg; lia).
  assert (Hm1 : 0 <= m1) by (apply Z.div_pos; lia).
  assert (Hm2 : 0 <= m2) by lia.
  pose proof (div_pow2_bounds mx (e1 - ex) Hm Hn1) as Hb1. fold m1 in Hb1.
  pose proof (div_pow2_bounds m2 (e3 - e1) Hm2 Hn2) as Hb2.
  set (m3 := m2 / 2 ^ (e3 - e1)) in *.
  assert (Hm3 : 0 <= m3) by (apply Z.div_pos; lia).
  assert (Hpow : 2 ^ (e3 - ex) = 2 ^ (e3 - e1) * 2 ^ (e1 - ex)).
  { rewrite <- Z.pow_add_r by lia. f_equal. lia. }
  assert (He1 : -149 <= e1) by (unfold e1; rewrite fexp_eq; lia).
  assert (Hd : 0 <= d) by apply Zdigits2_nonneg.
  assert (Hdm1 : Zdigits2 m1 = Z.max 0 (d - (e1 - ex)))
    by (apply Zdigits2_div_pow2; lia).
  assert (Hdm2 : Zdigits2 m2 <= Zdigits2 m1 + 1).
  { destruct Hc as [->| ->]; [lia | apply Zdigits2_succ; exact Hm1]. }
  assert (Hdm2' : Zdigits2 m1 <= Zdigits2 m2)
    by (apply Zdigits2_le; lia).
  assert (Hdm3 : Zdigits2 m3 = Z.max 0 (Zdigits2 m2 - (e3 - e1)))
    by (apply Zdigits2_div_pow2; lia).
  assert (Hdm3pos : 0 < m3 -> 0 < Zdigits2 m3).
  { intros H. pose proof (Zdigits2_ge_pow2 m3 0 ltac:(simpl; lia) ltac:(lia)). lia. }
  split.
  - exact Hm3.
  - lia.
  - rewrite Hpow. nia.
  - rewrite Hpow. nia.
  - unfold e3. unfold e1 in *. rewrite !fexp_eq in *. lia.
  - intros H. specialize (Hdm3pos H). unfold e3 in Hdm3. rewrite fexp_eq in Hdm3. lia.
  - intros H Hmx. specialize (Hdm3pos H).
    assert (0 < d).
    { pose proof (Zdigits2_ge_pow2 mx 0 ltac:(simpl; lia) ltac:(lia)). fold d in H0. lia. }
    unfold e1 in *. rewrite fexp_eq in *. lia.
  - intros H Hex. specialize (Hdm3pos H). fold d in Hex.
    assert (He1' : e1 = fexp F32.prec F32.emax (d + ex)) by (unfold e1; lia).
    rewrite fexp_eq in He1'.
    assert (Hm2pos : 0 < m2).
    { destruct (Z.eq_dec m2 0) as [E|E]; [|lia].
      unfold m3 in H. rewrite E in H. rewrite Z.div_0_l in H; lia. }
    assert (Hd2pos : 0 < Zdigits2 m2).
    { pose proof (Zdigits2_ge_pow2 m2 0 ltac:(simpl; lia) ltac:(lia)). lia. }
    unfold e3 in *. rewrite !fexp_eq in *. lia.
Qed.

(** ** Division *)

Lemma SFdiv_core_binary_spec m1 e1 m2 e2 : 0 < m1 -> 0 < m2 ->
  let e' := Z.min (fexp F32.prec F32.emax (Zdigits2 m1 + e1 - (Zdigits2 m2 + e2))) (e1 - e2) in
  let s := e1 - e2 - e' in
  exists l, SFdiv_core_binary F32.prec F32.emax m1 e1 m2 e2 = (m1 * 2 ^ s / m2, e', l).
Proof.
  intros H1 H2 e' s. unfold SFdiv_core_binary. fold e'. fold s.
  assert (Hs : 0 <= s) by (unfold s, e'; lia).
  assert (Hm : match s with Z.pos _ => Z.shiftl m1 s | Z0 => m1 | Z.neg _ => 0 end = m1 * 2 ^ s).
  { destruct s as [|p|p] eqn:E.
    - simpl. lia.
    - apply Z.shiftl_mul_pow2. lia.
    - lia. }
  rewrite Hm. unfold Z.div.
  destruct (Z.div_eucl (m1 * 2 ^ s) m2) as [q r].
  eexists. reflexivity.
Qed.

(** The quotient mantissa has the digits the rounding needs, and no more
    than the magnitudes of the operands allow. *)
Lemma div_quotient_digits m1 e1 m2 e2 : 0 < m1 -> 0 < m2 ->
  let e' := Z.min (fexp F32.prec F32.emax (Zdigits2 m1 + e1 - (Zdigits2 m2 + e2))) (e1 - e2) in
  let s := e1 - e2 - e' in
  let q := m1 * 2 ^ s / m2 in
  0 <= q /\
  q * m2 <= m1 * 2 ^ s < (q + 1) * m2 /\
  (0 < q -> Zdigits2 q + e' <= Zdigits2 m1 + e1 - (Zdigits2 m2 + e2) + 1) /\
  e' <= fexp F32.prec F32.emax (Zdigits2 q + e').
Proof.
  intros H1 H2 e' s q.
  assert (Hs : 0 <= s) by (unfold s, e'; lia).
  assert (Hp : 0 < 2 ^ s) by (apply Z.pow_pos_nonneg; lia).
  pose proof (Zdigits2_bounds m1 H1) as [Hl1 Hu1].
  pose proof (Zdigits2_bounds m2 H2) as [Hl2 Hu2].
  pose proof (Zdigits2_nonneg m1) as Hd1.
  pose proof (Zdigits2_nonneg m2) as Hd2.
  assert (Hd1' : 0 < Zdigits2 m1)
    by (pose proof (Zdigits2_ge_pow2 m1 0 ltac:(simpl; lia) ltac:(lia)); lia).
  assert (Hd2' : 0 < Zdigits2 m2)
    by (pose proof (Zdigits2_ge_pow2 m2 0 ltac:(simpl; lia) ltac:(lia)); lia).
  assert (Hq0 : 0 <= q) by (apply Z.div_pos; nia).
  assert (Hq : q * m2 <= m1 * 2 ^ s < (q + 1) * m2).
  { pose proof (Z.div_mod (m1 * 2 ^ s) m2 ltac:(lia)).
    pose proof (Z.mod_pos_bound (m1 * 2 ^ s) m2 H2). fold q in H. nia. }
  split; [exact Hq0|]. split; [exact Hq|]. split.
  - (* upper bound on the digits *)
    intros Hqpos.
    set (k := Zdigits2 m1 + s - Zdigits2 m2 + 1).
    assert (Hnum : m1 * 2 ^ s < 2 ^ (Zdigits2 m1 + s)).
    { rewrite Z.pow_add_r by lia. nia. }
    assert (Hk : 0 < k).
    { destruct (Z_lt_le_dec 0 k) as [Hk|Hk]; [exact Hk|exfalso].
      assert (2 ^ (Zdigits2 m1 + s) <= 2 ^ (Zdigits2 m2 - 1))
        by (apply Z.pow_le_mono_r; unfold k in Hk; lia).
      nia. }
    assert (Hqk : q < 2 ^ k).
    { apply Z.div_lt_upper_bound; [exact H2|].
      assert (2 ^ (Zdigits2 m1 + s) = 2 ^ (Zdigits2 m2 - 1) * 2 ^ k).
      { rewrite <- Z.pow_add_r by lia. f_equal. unfold k. lia. }
      assert (0 < 2 ^ k) by (apply Z.pow_pos_nonneg; lia).
      nia. }
    pose proof (Zdigits2_lt_pow2 q k ltac:(lia) ltac:(lia)).
    unfold k, s in *. lia.
  - (* enough digits *)
    rewrite fexp_eq.
    destruct (Z_le_gt_dec e' (-149)) as [He|He]; [lia|].
    (* above the least exponent the shift is at least 24 + d2 - d1 *)
    assert (Hs' : Zdigits2 m2 - Zdigits2 m1 + 24 <= s).
    { unfold s, e' in *. rewrite fexp_eq in *. lia. }
    set (k := Zdigits2 m1 - 1 + s - Zdigits2 m2).
    assert (Hk : 0 <= k) by (unfold k; lia).
    assert (Hqk : 2 ^ k <= q).
    { apply Z.div_le_lower_bound; [exact H2|].
      assert (2 ^ (Zdigits2 m1 - 1 + s) = 2 ^ (Zdigits2 m2) * 2 ^ k).
      { rewrite <- Z.pow_add_r by lia. f_equal. unfold k. lia. }
      assert (2 ^ (Zdigits2 m1 - 1 + s) = 2 ^ (Zdigits2 m1 - 1) * 2 ^ s).
      { rewrite <- Z.pow_add_r by lia. reflexivity. }
      assert (0 < 2 ^ k) by (apply Z.pow_pos_nonneg; lia).
      nia. }
    pose proof (Zdigits2_ge_pow2 q k Hqk Hk).
    unfold k, s, e' in *. rewrite fexp_eq in *. lia.
Qed.

(** With the digits the rounding needs, the result is normal or at the
    least exponent. *)
Lemma rounded_normal mx ex m e :
  0 <= mx -> rounded mx ex m e ->
  ex <= fexp F32.prec F32.emax (Zdigits2 mx + ex) ->
  (e <= -149 /\ m < 2 ^ 24) \/ (-149 < e /\ 2 ^ 23 <= m < 2 ^ 24).
Proof.
  intros Hmx [Rm Re Rlo Rup Rele Rdig Rmag Rcan] Hex.
  pose proof (Zdigits2_nonneg mx) as Hd.
  destruct (Z.eq_dec m 0) as [->|Hm0].
  - left. split; [|reflexivity].
    destruct (Z_le_gt_dec e (-149)) as [He|He]; [exact He|exfalso].
    rewrite !fexp_eq in *.
    assert (Hmxpos : 0 < mx).
    { destruct (Z.eq_dec mx 0) as [->|]; [|lia]. change (Zdigits2 0) with 0 in *. lia. }
    pose proof (Zdigits2_bounds mx Hmxpos) as [Hlo _].
    assert (2 ^ (e - ex) <= 2 ^ (Zdigits2 mx - 1)) by (apply Z.pow_le_mono_r; lia).
    lia.
  - assert (Hmpos : 0 < m) by lia.
    specialize (Rcan Hmpos Hex). specialize (Rdig Hmpos).
    rewrite fexp_eq in Rcan.
    pose proof (Zdigits2_bounds m Hmpos) as [Hlo Hhi].
    assert (m < 2 ^ 24).
    { apply Z.lt_le_trans with (1 := Hhi). apply Z.pow_le_mono_r; lia. }
    destruct (Z_le_gt_dec e (-149)) as [He|He]; [left; lia|right].
    assert (Zdigits2 m = 24) as E by lia. rewrite E in Hlo. simpl in Hlo.
    change (2 ^ 23) with 8388608. lia.
Qed.


Lemma SFdiv_finite sx mx ex sy my ey :
  let e' := Z.min (fexp F32.prec F32.emax (Zdigits2 (Zpos mx) + ex - (Zdigits2 (Zpos my) + ey))) (ex - ey) in
  let q := Zpos mx * 2 ^ (ex - ey - e') / Zpos my in
  exists m e,
    SFdiv F32.prec F32.emax (S754_finite sx mx ex) (S754_finite sy my ey) = build (xorb sx sy) m e /\
    rounded q e' m e.
Proof.
  intros e' q. unfold SFdiv.
  destruct (SFdiv_core_binary_spec (Zpos mx) ex (Zpos my) ey ltac:(lia) ltac:(lia)) as [l Hl].
  cbv zeta in Hl. fold e' in Hl. fold q in Hl. rewrite Hl.
  apply binary_round_aux_rounded.
  apply (div_quotient_digits (Zpos mx) ex (Zpos my) ey); lia.
Qed.



Lemma build_zero_or_pos sx m e :
  0 <= m -> e <= F32.emax - F32.prec ->
  build sx m e = S754_zero sx \/
  exists p, m = Zpos p /\ build sx m e = S754_finite sx p e.
Proof.
  intros Hm He. destruct m as [|p|p]; [left; reflexivity| |lia].
  right. exists p. split; [reflexivity|]. unfold build.
  replace (e <=? F32.emax - F32.prec) with true by (symmetry; apply Z.leb_le; exact He).
  reflexivity.
Qed.

Lemma SFdiv_pos_magnitude mx ex my ey :
  let x := S754_finite false mx ex in
  let y := S754_finite false my ey in
  mag x - mag y <= 126 ->
  nonneg_finite (SFdiv F32.prec F32.emax x y) = true /\
  mag (SFdiv F32.prec F32.emax x y) <= Z.max (mag x - mag y + 1) (-149) + 1.
Proof.
  intros x y Hmu. unfold x, y in *. unfold mag in *.
  destruct (SFdiv_finite false mx ex false my ey) as [m [e [Hr R]]].
  cbv zeta in R. simpl xorb in Hr.
  pose proof (div_quotient_digits (Zpos mx) ex (Zpos my) ey ltac:(lia) ltac:(lia))
    as [Hq0 [_ [Hqd _]]]. cbv zeta in Hqd, Hq0.
  set (e' := Z.min (fexp F32.prec F32.emax (Zdigits2 (Z.pos mx) + ex - (Zdigits2 (Z.pos my) + ey)))
               (ex - ey)) in *.
  set (q := Z.pos mx * 2 ^ (ex - ey - e') / Z.pos my) in *.
  set (mu := Zdigits2 (Z.pos mx) + ex - (Zdigits2 (Z.pos my) + ey)) in *.
  destruct R as [Rm Re Rlo Rup Rele Rdig Rmag Rcan].
  assert (He' : e' <= fexp F32.prec F32.emax mu) by (unfold e'; lia).
  rewrite fexp_eq in He'.
  assert (Hdq : Zdigits2 q + e' <= Z.max (mu + 1) e').
  { destruct (Z.eq_dec q 0) as [->|Hq]; [change (Zdigits2 0) with 0; lia|].
    specialize (Hqd ltac:(lia)). lia. }
  assert (He : e <= F32.emax - F32.prec).
  { rewrite fexp_eq in Rele. unfold F32.emax, F32.prec. lia. }
  rewrite Hr.
  destruct (build_zero_or_pos false m e Rm He) as [-> | [p [-> ->]]].
  - split; [reflexivity|]. lia.
  - split; [reflexivity|].
    destruct (Z.eq_dec q 0) as [Hq|Hq].
    + (* the quotient mantissa is 0 and was rounded up to 1 *)
      rewrite Hq in Rlo, Rele.
      assert (0 < 2 ^ (e - e')) by (apply Z.pow_pos_nonneg; lia).
      assert (Z.pos p = 1) as -> by nia.
      change (Zdigits2 0) with 0 in *. change (Zdigits2 1) with 1.
      rewrite fexp_eq in Rele. lia.
    + specialize (Rmag ltac:(lia) ltac:(lia)).
      specialize (Hqd ltac:(lia)). lia.
Qed.

(** ** Conversion of an integer *)

Lemma Zdigits2_mul_pow2 m k : 0 < m -> 0 <= k -> Zdigits2 (m * 2 ^ k) = Zdigits2 m + k.
Proof.
  intros Hm Hk.
  pose proof (Zdigits2_bounds m Hm) as [Hlo Hhi].
  assert (Hd : 0 < Zdigits2 m)
    by (pose proof (Zdigits2_ge_pow2 m 0 ltac:(simpl; lia) ltac:(lia)); lia).
  assert (Hp : 0 < 2 ^ k) by (apply Z.pow_pos_nonneg; lia).
  assert (H1 : 2 ^ (Zdigits2 m - 1 + k) <= m * 2 ^ k)
    by (rewrite Z.pow_add_r by lia; nia).
  assert (H2 : m * 2 ^ k < 2 ^ (Zdigits2 m + k))
    by (rewrite Z.pow_add_r by lia; nia).
  pose proof (Zdigits2_ge_pow2 _ _ H1 ltac:(lia)).
  pose proof (Zdigits2_lt_pow2 (m * 2 ^ k) (Zdigits2 m + k) ltac:(nia) ltac:(lia)).
  lia.
Qed.

Lemma iter_xO m d : Zpos (Pos.iter xO m d) = Zpos m * 2 ^ Zpos d.
Proof.
  induction d as [|d IH] using Pos.peano_ind.
  - simpl. lia.
  - rewrite Pos.iter_succ, Pos2Z.inj_xO, IH, Pos2Z.inj_succ, Z.pow_succ_r by lia. lia.
Qed.

Lemma shl_align_spec mx ex ex' :
  let ez := Z.min ex ex' in
  snd (shl_align mx ex ex') = ez /\
  Zpos (fst (shl_align mx ex ex')) = Zpos mx * 2 ^ (ex - ez).
Proof.
  intros ez. unfold shl_align.
  destruct (ex' - ex) as [|d|d] eqn:E; simpl fst; simpl snd.
  - replace (ex - ez) with 0 by lia. split; lia.
  - replace (ex - ez) with 0 by lia. split; lia.
  - rewrite iter_xO. replace (ex - ez) with (Zpos d) by lia. split; lia.
Qed.

(** [binary_round] on a positive mantissa. *)
Lemma binary_round_rounded sx mx ex :
  let ez := Z.min ex (fexp F32.prec F32.emax (Zdigits2 (Zpos mx) + ex)) in
  let mz := Zpos mx * 2 ^ (ex - ez) in
  exists m e,
    binary_round F32.prec F32.emax sx mx ex = build sx m e /\
    rounded mz ez m e /\
    ez <= fexp F32.prec F32.emax (Zdigits2 mz + ez).
Proof.
  intros ez mz. unfold binary_round.
  pose proof (shl_align_spec mx ex (fexp F32.prec F32.emax (Zpos (digits2_pos mx) + ex)))
    as [H1 H2].
  cbv zeta in H1, H2.
  change (Zpos (digits2_pos mx)) with (Zdigits2 (Zpos mx)) in *.
  fold ez in H1, H2. fold mz in H2.
  destruct (shl_align mx ex (fexp F32.prec F32.emax (Zdigits2 (Z.pos mx) + ex))) as [mz' ez'].
  simpl in H1, H2. subst ez'. rewrite H2.
  destruct (binary_round_aux_rounded sx mz ez loc_Exact ltac:(lia)) as [m [e [Hr R]]].
  exists m, e. split; [exact Hr|]. split; [exact R|].
  unfold mz. rewrite Zdigits2_mul_pow2 by (unfold ez; lia).
  unfold ez. rewrite !fexp_eq. lia.
Qed.

End Binary32.

(** ** The loop of [setFrequency] ends *)

Lemma gt_1000_magnitude x : F32.ltb f1000 x = true ->
  x = S754_infinity false \/ (exists m e, x = S754_finite false m e /\ -13 <= mag x).
Proof.
  unfold F32.ltb, SFltb. change f1000 with (S754_finite false 16384000 (-14)).
  destruct x as [s|s| |s m e]; cbv beta iota delta [SFcompare]; try discriminate.
  - destruct s; [discriminate|]. intros _. left. reflexivity.
  - destruct s; [discriminate|].
    intros H. right. exists m, e. split; [reflexivity|]. unfold mag.
    pose proof (Binary32.Zdigits2_ge_pow2 (Zpos m) 0 ltac:(simpl; lia) ltac:(lia)).
    destruct (Z.compare_spec (-14) e); try discriminate; lia.
Qed.



Lemma normalize_loop_stop n x idx :
  F32.ltb f1000 x = false -> normalize_loop (S n) x idx = Some (x, idx).
Proof. intros H. simpl. rewrite H. reflexivity. Qed.

Lemma normalize_loop_step n x idx :
  F32.ltb f1000 x = true ->
  normalize_loop (S n) x idx = normalize_loop n (F32.div x f1000) (uint8 (idx + 1)).
Proof. intros H. simpl. rewrite H. reflexivity. Qed.

Lemma normalize_loop_ends n : forall x idx,
  nonneg_finite x = true -> mag x <= 136 -> mag x <= -14 + 8 * Z.of_nat n ->
  exists k, (k <= n)%nat /\
    normalize_loop (S n) x idx = Some (div1000 k x, Nat.iter k next_index idx) /\
    F32.ltb f1000 (div1000 k x) = false /\
    (forall j, (j < k)%nat -> F32.ltb f1000 (div1000 j x) = true).
Proof.
  induction n as [|n IH]; intros x idx Hx Hb Hm.
  - exists O. split; [lia|].
    assert (Hlt : F32.ltb f1000 x = false).
    { destruct (F32.ltb f1000 x) eqn:E; [|reflexivity].
      destruct (gt_1000_magnitude x E) as [->|[m [e [-> H]]]]; [discriminate|]. lia. }
    split; [apply normalize_loop_stop; exact Hlt|]. split; [exact Hlt|]. intros j Hj. lia.
  - destruct (F32.ltb f1000 x) eqn:E.
    + destruct (gt_1000_magnitude x E) as [->|[m [e [-> H]]]]; [discriminate|].
      pose proof (Binary32.SFdiv_pos_magnitude m e 16384000 (-14)) as Hd. cbv zeta in Hd.
      change (SFdiv F32.prec F32.emax) with F32.div in Hd.
      change (S754_finite false 16384000 (-14)) with f1000 in Hd.
      change (mag f1000) with 10 in Hd.
      destruct (Hd ltac:(lia)) as [Hd1 Hd2].
      destruct (IH (F32.div (S754_finite false m e) f1000) (uint8 (idx + 1)) Hd1
                  ltac:(lia) ltac:(lia))
        as [k [Hk [Hrun [Hend Hall]]]].
      exists (S k). split; [lia|]. split; [|split].
      * rewrite normalize_loop_step by exact E. rewrite Hrun.
        change (uint8 (idx + 1)) with (next_index idx).
        rewrite Nat.iter_swap. reflexivity.
      * exact Hend.
      * intros [|j] Hj; [exact E|]. apply Hall. lia.
    + exists O. split; [lia|].
      split; [apply normalize_loop_stop; exact E|]. split; [exact E|]. intros j Hj. lia.
Qed.

(** ** Rational values of floats *)

Module Binary32Q.

Import Binary32.

(** A product of two factors that linear arithmetic shows nonnegative. *)
Ltac product_nonneg := apply Qmult_le_0_compat; lra.

Lemma pow2_pos e : (0 < pow2 e)%Q.
Proof. unfold pow2. apply Qpower_0_lt. reflexivity. Qed.

Lemma pow2_add a b : (pow2 (a + b) == pow2 a * pow2 b)%Q.
Proof. unfold pow2. apply Qpower_plus. discriminate. Qed.

Lemma pow2_inject k : 0 <= k -> (inject_Z (2 ^ k) == pow2 k)%Q.
Proof. intros H. unfold pow2. apply (Zpower_Qpower 2 k H). Qed.

Lemma pow2_le a b : a <= b -> (pow2 a <= pow2 b)%Q.
Proof. intros H. unfold pow2. apply Qpower_le_compat_l; [exact H|]. discriminate. Qed.

(** An inequality between scaled integers, moved to any exponent. *)
Lemma scaled_le a i b j c : 0 <= i -> 0 <= j ->
  a * 2 ^ i <= b * 2 ^ j ->
  (inject_Z a * pow2 (i + c) <= inject_Z b * pow2 (j + c))%Q.
Proof.
  intros Hi Hj H.
  rewrite !pow2_add. rewrite <- (pow2_inject i Hi), <- (pow2_inject j Hj).
  rewrite !Qmult_assoc. rewrite <- !inject_Z_mult.
  apply Qmult_le_compat_r; [|apply Qlt_le_weak, pow2_pos].
  rewrite <- Zle_Qle. exact H.
Qed.

(** The quotient of two positive floats: the result is within one unit
    in the last place of the exact quotient X / Y. *)
Lemma SFdiv_pos_bounds mx ex my ey :
  let x := S754_finite false mx ex in
  let y := S754_finite false my ey in
  exists m e,
    F32.div x y = build false m e /\
    0 <= m /\
    ((e <= -149 /\ m < 2 ^ 24) \/ (-149 < e /\ 2 ^ 23 <= m < 2 ^ 24)) /\
    ((inject_Z m - 1) * pow2 e * F2Q y <= F2Q x)%Q /\
    (F2Q x <= (inject_Z m + 1) * pow2 e * F2Q y)%Q.
Proof.
  intros x y. unfold x, y, F32.div.
  destruct (SFdiv_finite false mx ex false my ey) as [m [e [Hr R]]].
  cbv zeta in R. simpl xorb in Hr.
  pose proof (div_quotient_digits (Zpos mx) ex (Zpos my) ey ltac:(lia) ltac:(lia))
    as [Hq0 [Hq [_ Hen]]]. cbv zeta in Hq0, Hq, Hen.
  set (e' := Z.min (fexp F32.prec F32.emax (Zdigits2 (Z.pos mx) + ex - (Zdigits2 (Z.pos my) + ey)))
               (ex - ey)) in *.
  set (q := Z.pos mx * 2 ^ (ex - ey - e') / Z.pos my) in *.
  exists m, e. split; [exact Hr|].
  pose proof (rounded_normal q e' m e Hq0 R Hen) as Hn.
  destruct R as [Rm Re Rlo Rup _ _ _ _].
  split; [exact Rm|]. split; [exact Hn|].
  assert (Hs : 0 <= ex - ey - e') by (unfold e'; lia).
  assert (Hp : 0 < 2 ^ (e - e')) by (apply Z.pow_pos_nonneg; lia).
  simpl F2Q.
  split.
  - assert (H : (m - 1) * Z.pos my * 2 ^ (e - e') <= Z.pos mx * 2 ^ (ex - ey - e')) by nia.
    apply (scaled_le _ _ _ _ (e' + ey)) in H; [|lia|lia].
    replace (e - e' + (e' + ey)) with (e + ey) in H by lia.
    replace (ex - ey - e' + (e' + ey)) with ex in H by lia.
    rewrite pow2_add, inject_Z_mult in H.
    unfold Z.sub in H. rewrite inject_Z_plus, inject_Z_opp in H.
    change (inject_Z 1) with 1%Q in H.
    eapply Qle_trans; [|exact H]. apply Qle_lteq. right. ring.
  - assert (H : Z.pos mx * 2 ^ (ex - ey - e') <= (m + 1) * Z.pos my * 2 ^ (e - e')) by nia.
    apply (scaled_le _ _ _ _ (e' + ey)) in H; [|lia|lia].
    replace (e - e' + (e' + ey)) with (e + ey) in H by lia.
    replace (ex - ey - e' + (e' + ey)) with ex in H by lia.
    rewrite pow2_add, inject_Z_mult in H.
    rewrite inject_Z_plus in H. change (inject_Z 1) with 1%Q in H.
    eapply Qle_trans; [exact H|]. apply Qle_lteq. right. ring.
Qed.

(** One unit in the last place of a normal float is at most [ulp_rel]
    of its value. *)
Lemma normal_rel m e : 2 ^ 23 <= m ->
  (inject_Z m * pow2 e * (1 - ulp_rel) <= (inject_Z m - 1) * pow2 e)%Q /\
  ((inject_Z m + 1) * pow2 e <= inject_Z m * pow2 e * (1 + ulp_rel))%Q.
Proof.
  intros Hm.
  assert (Hq : (8388608 <= inject_Z m)%Q).
  { change 8388608%Q with (inject_Z 8388608). rewrite <- Zle_Qle.
    change (2 ^ 23) with 8388608 in Hm. exact Hm. }
  pose proof (pow2_pos e) as Hp.
  unfold ulp_rel.
  assert (H : (0 <= (inject_Z m * (1 # 8388608) - 1) * pow2 e)%Q).
  { product_nonneg. }
  split; lra.
Qed.

(** The rational value of what [build] gives for a positive mantissa. *)
Lemma build_finite s m e s' p e' :
  build s m e = S754_finite s' p e' -> s' = s /\ m = Zpos p /\ e' = e.
Proof.
  unfold build. destruct m as [|m|m]; try discriminate.
  destruct (e <=? F32.emax - F32.prec); [|discriminate].
  intros H. inversion H. auto.
Qed.

Lemma below_least_normal m e : 0 <= m < 2 ^ 24 -> e <= -149 ->
  ((inject_Z m + 1) * pow2 e <= pow2 (-125))%Q.
Proof.
  intros Hm He.
  assert (H1 : (inject_Z m + 1 <= 16777216)%Q).
  { change 1%Q with (inject_Z 1). rewrite <- inject_Z_plus.
    change 16777216%Q with (inject_Z 16777216). rewrite <- Zle_Qle.
    change (2 ^ 24) with 16777216 in Hm. lia. }
  assert (H2 : (pow2 e <= pow2 (-149))%Q) by (apply pow2_le; exact He).
  pose proof (pow2_pos e) as Hp.
  assert (H3 : (16777216 * pow2 (-149) == pow2 (-125))%Q) by reflexivity.
  assert (H4 : (0 <= (16777216 - (inject_Z m + 1)) * pow2 e)%Q)
    by product_nonneg.
  lra.
Qed.

Lemma F2Q_pos p e : (0 < F2Q (S754_finite false p e))%Q.
Proof.
  simpl. apply Qmult_lt_0_compat; [|apply pow2_pos].
  change 0%Q with (inject_Z 0). rewrite <- Zlt_Qlt. lia.
Qed.

(** A finite quotient above the subnormal range is within [ulp_rel] of
    the exact quotient. *)
Lemma div_finite_rel mx ex my ey s p e :
  let x := S754_finite false mx ex in
  let y := S754_finite false my ey in
  F32.div x y = S754_finite s p e ->
  (pow2 (-125) < F2Q (S754_finite s p e))%Q ->
  s = false /\
  (F2Q (S754_finite s p e) * (1 - ulp_rel) * F2Q y <= F2Q x)%Q /\
  (F2Q x <= F2Q (S754_finite s p e) * (1 + ulp_rel) * F2Q y)%Q.
Proof.
  intros x y Hd Hbig.
  destruct (SFdiv_pos_bounds mx ex my ey) as [m [e0 [Hr [Hm [Hn [Hlo Hup]]]]]].
  fold x y in Hr, Hlo, Hup. rewrite Hd in Hr. symmetry in Hr.
  apply build_finite in Hr. destruct Hr as [-> [-> Hee]]. subst e0.
  split; [reflexivity|].
  pose proof (F2Q_pos my ey) as Hy. fold y in Hy.
  destruct Hn as [[He Hm24]|[He Hm23]].
  - exfalso. pose proof (below_least_normal (Zpos p) e ltac:(lia) He) as Hb.
    change (F2Q (S754_finite false p e)) with (inject_Z (Z.pos p) * pow2 e)%Q in Hbig.
    pose proof (pow2_pos e) as Hp.
    lra.
  - destruct (normal_rel (Zpos p) e ltac:(lia)) as [N1 N2].
    change (F2Q (S754_finite false p e)) with (inject_Z (Z.pos p) * pow2 e)%Q.
    assert (H1 : (0 <= ((inject_Z (Z.pos p) - 1) * pow2 e
                        - inject_Z (Z.pos p) * pow2 e * (1 - ulp_rel)) * F2Q y)%Q)
      by product_nonneg.
    assert (H2 : (0 <= (inject_Z (Z.pos p) * pow2 e * (1 + ulp_rel)
                        - (inject_Z (Z.pos p) + 1) * pow2 e) * F2Q y)%Q)
      by product_nonneg.
    split; lra.
Qed.

(** A quotient whose exact value is in the normal range is finite and
    within [ulp_rel] of the exact value. *)
Lemma div_rel mx ex my ey :
  let x := S754_finite false mx ex in
  let y := S754_finite false my ey in
  (pow2 (-125) * F2Q y < F2Q x)%Q ->
  (F2Q x < pow2 126 * F2Q y)%Q ->
  exists p e,
    F32.div x y = S754_finite false p e /\
    (F2Q (S754_finite false p e) * (1 - ulp_rel) * F2Q y <= F2Q x)%Q /\
    (F2Q x <= F2Q (S754_finite false p e) * (1 + ulp_rel) * F2Q y)%Q.
Proof.
  intros x y Hsmall Hbig.
  destruct (SFdiv_pos_bounds mx ex my ey) as [m [e [Hr [Hm [Hn [Hlo Hup]]]]]].
  fold x y in Hr, Hlo, Hup.
  pose proof (F2Q_pos my ey) as Hy. fold y in Hy.
  pose proof (pow2_pos e) as Hp.
  destruct Hn as [[He Hm24]|[He Hm23]].
  - exfalso. pose proof (below_least_normal m e ltac:(lia) He) as Hb.
    assert (H1 : (0 <= (pow2 (-125) - (inject_Z m + 1) * pow2 e) * F2Q y)%Q)
      by product_nonneg.
    lra.
  - assert (He104 : e <= 104).
    { destruct (Z_le_gt_dec e 104) as [H|H]; [exact H|exfalso].
      assert (H1 : (pow2 105 <= pow2 e)%Q) by (apply pow2_le; lia).
      assert (H2 : (8388608 <= inject_Z m)%Q).
      { change 8388608%Q with (inject_Z 8388608). rewrite <- Zle_Qle.
        change (2 ^ 23) with 8388608 in Hm23. lia. }
      assert (H3 : (pow2 126 <= 8388607 * pow2 105)%Q) by (vm_compute; discriminate).
      assert (H4 : (0 <= (inject_Z m - 1 - 8388607) * pow2 e)%Q)
        by product_nonneg.
      assert (H4' : (0 <= 8388607 * (pow2 e - pow2 105))%Q)
        by product_nonneg.
      assert (H5 : (0 <= ((inject_Z m - 1) * pow2 e - pow2 126) * F2Q y)%Q)
        by product_nonneg.
      lra. }
    destruct m as [|p|p]; try (change (2 ^ 23) with 8388608 in Hm23; lia).
    exists p, e. split.
    + rewrite Hr. unfold build.
      replace (e <=? F32.emax - F32.prec) with true
        by (symmetry; apply Z.leb_le; unfold F32.emax, F32.prec; lia).
      reflexivity.
    + destruct (normal_rel (Zpos p) e ltac:(lia)) as [N1 N2].
      change (F2Q (S754_finite false p e)) with (inject_Z (Z.pos p) * pow2 e)%Q.
      assert (H1 : (0 <= ((inject_Z (Z.pos p) - 1) * pow2 e
                          - inject_Z (Z.pos p) * pow2 e * (1 - ulp_rel)) * F2Q y)%Q)
        by product_nonneg.
      assert (H2 : (0 <= (inject_Z (Z.pos p) * pow2 e * (1 + ulp_rel)
                          - (inject_Z (Z.pos p) + 1) * pow2 e) * F2Q y)%Q)
        by product_nonneg.
      split; lra.
Qed.

(** The integral part of a positive float. *)
Lemma trunc_bounds p e n :
  F32.trunc (S754_finite false p e) = Some n ->
  0 <= n /\
  (inject_Z n <= F2Q (S754_finite false p e))%Q /\
  (F2Q (S754_finite false p e) <= inject_Z n + 1)%Q.
Proof.
  simpl. intros H. inversion H as [Hn]. clear H.
  destruct (Z_le_gt_dec 0 e) as [He|He].
  - rewrite Z.shiftl_mul_pow2 by exact He.
    assert (0 < 2 ^ e) by (apply Z.pow_pos_nonneg; lia).
    split; [nia|].
    rewrite inject_Z_mult, pow2_inject by exact He.
    pose proof (pow2_pos e).
    split; lra.
  - set (k := - e). assert (Hk : 0 < k) by (unfold k; lia).
    replace e with (- k) by (unfold k; lia).
    rewrite Z.shiftl_opp_r, Z.shiftr_div_pow2 by lia.
    pose proof (div_pow2_bounds (Zpos p) k ltac:(lia) ltac:(lia)) as [Hlo Hhi].
    set (q := Z.pos p / 2 ^ k) in *.
    assert (Hq : 0 <= q) by (apply Z.div_pos; [lia | apply Z.pow_pos_nonneg; lia]).
    split; [exact Hq|].
    split.
    + assert (H : q * 2 ^ k <= Z.pos p * 2 ^ 0) by lia.
      apply (scaled_le _ _ _ _ (- k)) in H; [|lia|lia].
      replace (k + - k) with 0 in H by lia. simpl (0 + - k) in H.
      change (pow2 0) with 1%Q in H. lra.
    + assert (H : Z.pos p * 2 ^ 0 <= (q + 1) * 2 ^ k) by lia.
      apply (scaled_le _ _ _ _ (- k)) in H; [|lia|lia].
      replace (k + - k) with 0 in H by lia. simpl (0 + - k) in H.
      change (pow2 0) with 1%Q in H.
      rewrite inject_Z_plus in H. change (inject_Z 1) with 1%Q in H. lra.
Qed.

(** The conversion of a positive integer that fits 64 bits is finite and
    within [ulp_rel] of the integer. *)
Lemma of_Z_rel n : 0 < n < 2 ^ 64 ->
  exists p e,
    F32.of_Z n = S754_finite false p e /\
    (F2Q (S754_finite false p e) * (1 - ulp_rel) <= inject_Z n)%Q /\
    (inject_Z n <= F2Q (S754_finite false p e) * (1 + ulp_rel))%Q.
Proof.
  intros [Hn0 Hn64]. destruct n as [|n|n]; try lia.
  unfold F32.of_Z, binary_normalize.
  destruct (binary_round_rounded false n 0) as [m [e [Hr [R Hen]]]]. cbv zeta in R, Hen.
  pose proof (Zdigits2_bounds (Zpos n) ltac:(lia)) as [Hlo Hhi].
  pose proof (Zdigits2_lt_pow2 (Zpos n) 64 ltac:(lia) ltac:(lia)) as Hd64.
  assert (Hd1 : 0 < Zdigits2 (Zpos n))
    by (pose proof (Zdigits2_ge_pow2 (Zpos n) 0 ltac:(simpl; lia) ltac:(lia)); lia).
  set (ez := Z.min 0 (fexp F32.prec F32.emax (Zdigits2 (Z.pos n) + 0))) in *.
  set (mz := Z.pos n * 2 ^ (0 - ez)) in *.
  assert (Hez : -23 <= ez <= 0) by (unfold ez; rewrite fexp_eq; lia).
  assert (Hmz : 0 < mz) by (unfold mz; assert (0 < 2 ^ (0 - ez)) by (apply Z.pow_pos_nonneg; lia); nia).
  pose proof (rounded_normal mz ez m e ltac:(lia) R Hen) as Hnorm.
  assert (Hdz : Zdigits2 mz = Zdigits2 (Zpos n) - ez).
  { unfold mz. rewrite Zdigits2_mul_pow2 by lia. lia. }
  destruct R as [Rm Re Rlo Rup Rele _ _ _].
  rewrite Hdz, fexp_eq in Rele.
  destruct Hnorm as [[He _]|[He Hm23]]; [lia|].
  destruct m as [|p|p]; try (change (2 ^ 23) with 8388608 in Hm23; lia).
  exists p, e. split.
  - rewrite Hr. unfold build.
    replace (e <=? F32.emax - F32.prec) with true
      by (symmetry; apply Z.leb_le; unfold F32.emax, F32.prec; lia).
    reflexivity.
  - destruct (normal_rel (Zpos p) e ltac:(lia)) as [N1 N2].
    change (F2Q (S754_finite false p e)) with (inject_Z (Z.pos p) * pow2 e)%Q.
    assert (Hp : 0 < 2 ^ (e - ez)) by (apply Z.pow_pos_nonneg; lia).
    assert (L : (Z.pos p - 1) * 2 ^ (e - ez) <= Z.pos n * 2 ^ (0 - ez)) by (fold mz; lia).
    assert (U : Z.pos n * 2 ^ (0 - ez) <= (Z.pos p + 1) * 2 ^ (e - ez)) by (fold mz; lia).
    apply (scaled_le _ _ _ _ ez) in L; [|lia|lia].
    apply (scaled_le _ _ _ _ ez) in U; [|lia|lia].
    replace (e - ez + ez) with e in L, U by lia.
    replace (0 - ez + ez) with 0 in L, U by lia.
    change (pow2 0) with 1%Q in L, U.
    unfold Z.sub in L. rewrite inject_Z_plus, inject_Z_opp in L.
    rewrite inject_Z_plus in U. change (inject_Z 1) with 1%Q in L, U.
    split; lra.
Qed.

Lemma div_pos_sign mx ex my ey s p e :
  F32.div (S754_finite false mx ex) (S754_finite false my ey) = S754_finite s p e ->
  s = false.
Proof.
  intros Hd.
  destruct (SFdiv_pos_bounds mx ex my ey) as [m [e0 [Hr _]]].
  cbv zeta in Hr. rewrite Hd in Hr. symmetry in Hr.
  apply build_finite in Hr. apply Hr.
Qed.

(** The arithmetic of the quantization bound: [A] is the tick count as
    a float, [N] its integral part, [P] the float of [N], [F] the
    frequency computed back, each rounding within [ulp_rel]. *)
Lemma quantization_arith (K T A N P F : Q) :
  (0 < T)%Q -> (0 < P)%Q -> (0 <= F)%Q -> (2 <= N)%Q ->
  (A * (1 - ulp_rel) * T <= K)%Q -> (K <= A * (1 + ulp_rel) * T)%Q ->
  (N <= A)%Q -> (A <= N + 1)%Q ->
  (P * (1 - ulp_rel) <= N)%Q -> (N <= P * (1 + ulp_rel))%Q ->
  (F * (1 - ulp_rel) * P <= K)%Q -> (K <= F * (1 + ulp_rel) * P)%Q ->
  (Qabs (F - T) / T <= 1 / N + (1 # 1048576))%Q.
Proof.
  unfold ulp_rel. intros HT HP HF HN H1a H1b H2a H2b H3a H3b H4a H4b.
  apply Qle_shift_div_r; [exact HT|].
  apply Qabs_Qle_condition.
  assert (HiN : (0 < / N)%Q) by (apply Qinv_lt_0_compat; lra).
  assert (E1 : (N * / N == 1)%Q) by (apply Qmult_inv_r; lra).
  set (iN := (/ N)%Q) in *.
  assert (EiN : (1 / N == iN)%Q) by (unfold iN; field; lra).
  rewrite EiN.
  assert (HiNT : (0 <= iN * T)%Q) by product_nonneg.
  split.
  - (* F is not much below T *)
    assert (P1 : (0 <= (A - N) * T)%Q) by product_nonneg.
    assert (P2 : (0 <= (N - P * (1 - (1 # 8388608))) * T)%Q)
      by product_nonneg.
    assert (HPc : (P * ((1 - (1 # 8388608)) * (1 - (1 # 8388608)) * T)
                   <= P * (F * (1 + (1 # 8388608))))%Q) by lra.
    apply Qmult_le_l in HPc; [|exact HP]. lra.
  - (* F is not much above T *)
    assert (P1 : (0 <= (F * (1 - (1 # 8388608))) * (P * (1 + (1 # 8388608)) - N))%Q)
      by product_nonneg.
    assert (P2 : (0 <= (N + 1 - A) * T)%Q) by product_nonneg.
    assert (P3 : (0 <= (N - 2) * T)%Q) by product_nonneg.
    assert (HN1 : (F * N - N * T <= T + (1 # 1048576) * (N * T))%Q) by lra.
    assert (E2 : (N * iN * T == T)%Q) by (rewrite E1; ring).
    assert (E3 : (N * iN * F == F)%Q) by (rewrite E1; ring).
    assert (HNc : (N * (F - T) <= N * ((iN + (1 # 1048576)) * T))%Q) by lra.
    apply Qmult_le_l in HNc; [exact HNc | lra].
Qed.

End Binary32Q.
(** ** Integer facts of the translation *)

Lemma float_to_unsigned_range undef w f :
  0 <= w -> 0 <= float_to_unsigned undef w f < 2 ^ w.
Proof.
  intros Hw. unfold float_to_unsigned.
  assert (Hp : 0 < 2 ^ w) by (apply Z.pow_pos_nonneg; lia).
  destruct (F32.trunc f) as [z|].
  - destruct ((0 <=? z) && (z <? 2 ^ w)) eqn:E.
    + apply andb_true_iff in E. destruct E as [E1 E2].
      apply Z.leb_le in E1. apply Z.ltb_lt in E2. lia.
    + apply Z.mod_pos_bound; exact Hp.
  - apply Z.mod_pos_bound; exact Hp.
Qed.

Lemma float_to_unsigned_in_range undef w f z :
  F32.trunc f = Some z -> 0 <= z < 2 ^ w -> float_to_unsigned undef w f = z.
Proof.
  intros Ht [H0 H1]. unfold float_to_unsigned. rewrite Ht.
  replace (0 <=? z) with true by (symmetry; apply Z.leb_le; lia).
  replace (z <? 2 ^ w) with true by (symmetry; apply Z.ltb_lt; lia).
  reflexivity.
Qed.

Lemma clipped_ticks_range undef s : 2 <= clipped_ticks undef s < 2 ^ 32.
Proof.
  unfold clipped_ticks.
  pose proof (float_to_unsigned_range undef 32 (tPeriod undef s)) as H.
  destruct (float_to_unsigned undef 32 (tPeriod undef s) <? 2) eqn:E.
  - lia.
  - apply Z.ltb_ge in E. lia.
Qed.

Lemma prescaler_of_div t : 0 <= t < 2 ^ 32 -> prescaler_of t = t / 65536 + 1.
Proof.
  intros H. unfold prescaler_of, uint32.
  rewrite Z.shiftr_div_pow2 by lia.
  change (2 ^ 16) with 65536.
  apply Z.mod_small.
  assert (0 <= t / 65536) by (apply Z.div_pos; lia).
  assert (t / 65536 < 65536) by (apply Z.div_lt_upper_bound; lia).
  lia.
Qed.

Lemma prescaler_of_range t : 0 <= t < 2 ^ 32 -> 1 <= prescaler_of t <= 65536.
Proof.
  intros H. rewrite prescaler_of_div by exact H.
  assert (0 <= t / 65536) by (apply Z.div_pos; lia).
  assert (t / 65536 < 65536) by (apply Z.div_lt_upper_bound; lia).
  lia.
Qed.

Lemma reload_of_range t : 2 <= t < 2 ^ 32 -> 2 <= reload_of t < 65536.
Proof.
  intros H. unfold reload_of.
  rewrite prescaler_of_div by lia.
  assert (Hq : 0 <= t / 65536) by (apply Z.div_pos; lia).
  pose proof (Z.div_mod t 65536 ltac:(lia)) as Hdm.
  pose proof (Z.mod_pos_bound t 65536 ltac:(lia)) as Hm.
  destruct (1 <? t / 65536 + 1) eqn:E.
  - apply Z.ltb_lt in E.
    rewrite Z.quot_div_nonneg by lia.
    split.
    + apply Z.div_le_lower_bound; lia.
    + apply Z.div_lt_upper_bound; lia.
  - apply Z.ltb_ge in E. lia.
Qed.

Lemma reload_times_prescaler t :
  2 <= t < 2 ^ 32 -> 0 <= reload_of t * prescaler_of t <= t.
Proof.
  intros H. unfold reload_of.
  rewrite prescaler_of_div by lia.
  assert (Hq : 0 <= t / 65536) by (apply Z.div_pos; lia).
  destruct (1 <? t / 65536 + 1) eqn:E.
  - apply Z.ltb_lt in E.
    rewrite Z.quot_div_nonneg by lia.
    pose proof (Z.mul_div_le t (t / 65536 + 1) ltac:(lia)).
    assert (0 <= t / (t / 65536 + 1)) by (apply Z.div_pos; lia).
    nia.
  - apply Z.ltb_ge in E. nia.
Qed.

(** ** The translation on the 32 bit timer *)

(** C1 fails at 1 mHz: the tick count 35 999 997 952 does not fit the
    32 bit reload. *)
Lemma lower_clip_as_specified_fails :
  ~ lower_clip_as_specified arm_saturate info_1mHz.
Proof.
  intros H. specialize (H 35999997952 eq_refl).
  vm_compute in H. destruct H as [_ H]. discriminate H.
Qed.

(** C1 (amended): on the 32 bit timer, for a square wave whose truncated
    tick count fits 32 bits: if the count is below 2 the translation
    returns clipped = true and stores and programs the reload 2, otherwise
    it returns clipped = false and stores and programs the count. *)
Theorem lower_clip undef s ticks :
  Waveform s = WAVEFORM_SQUARE ->
  F32.trunc (tPeriod undef s) = Some ticks ->
  0 <= ticks < 2 ^ 32 ->
  setWaveformFrequency undef Timer32 s =
    if ticks <? 2
    then (set_DividerInt 2 s, [Synth_Timer32_SetReloadValue 2], true)
    else (set_DividerInt ticks s, [Synth_Timer32_SetReloadValue ticks], false).
Proof.
  intros Hw Ht Hr. unfold setWaveformFrequency. rewrite Hw. simpl waveform_eqb. cbv iota.
  rewrite (float_to_unsigned_in_range undef 32 _ ticks Ht Hr).
  destruct (ticks <? 2); reflexivity.
Qed.

Lemma lower_clip_witness :
  setWaveformFrequency arm_saturate Timer32 info_2000Hz =
    (set_DividerInt 18000 info_2000Hz, [Synth_Timer32_SetReloadValue 18000], false).
Proof.
  apply (lower_clip arm_saturate info_2000Hz 18000).
  - reflexivity.
  - vm_compute. reflexivity.
  - vm_compute. split; [discriminate | reflexivity].
Defined.

(** C2 (the code at 1 mHz): the tick count exceeds 32 bits and the cast
    is out of range; whatever the cast yields, the translation does not
    both flag clipping and store 0xFFFFFFFF, and with the saturating cast
    of the target it stores 0xFFFFFFFF and returns clipped = false. *)
Theorem upper_clip_missing :
  in_range 32 (tPeriod arm_saturate info_1mHz) = false /\
  (forall undef,
     let '(s', _, clipped) := setWaveformFrequency undef Timer32 info_1mHz in
     ~ (clipped = true /\ DividerInt s' = 4294967295)) /\
  setWaveformFrequency arm_saturate Timer32 info_1mHz =
    (set_DividerInt 4294967295 info_1mHz,
     [Synth_Timer32_SetReloadValue 4294967295], false).
Proof.
  split; [vm_compute; reflexivity|]. split; [|vm_compute; reflexivity].
  intros undef. unfold setWaveformFrequency. simpl waveform_eqb. cbv iota.
  destruct (float_to_unsigned undef 32 (tPeriod undef info_1mHz) <? 2) eqn:E.
  - simpl. intros [_ H]. discriminate H.
  - intros [H _]. discriminate H.
Qed.

(** C6: on the 32 bit timer a waveform other than square makes the
    translation return clipped = true with the state, so the stored
    reload, unchanged and without any driver call. *)
Theorem non_square_untouched undef s :
  Waveform s <> WAVEFORM_SQUARE ->
  setWaveformFrequency undef Timer32 s = (s, [], true).
Proof.
  intros H. unfold setWaveformFrequency.
  destruct (Waveform s); try reflexivity. contradiction H; reflexivity.
Qed.

Lemma non_square_untouched_witness :
  setWaveformFrequency arm_saturate Timer32 info_sine = (info_sine, [], true).
Proof.
  apply (non_square_untouched arm_saturate info_sine). discriminate.
Defined.

(** ** The translation on the 16 bit timer *)

(** C4: on the 16 bit timer, for a square wave, one driver call is made,
    with prescaler = (ticks >> 16) + 1 >= 1 and a reload in [2, 65536),
    which is ticks / prescaler when the prescaler exceeds 1; ticks is the
    tick count after the lower clip. *)
Theorem reload16_bounds undef s :
  Waveform s = WAVEFORM_SQUARE ->
  exists reload prescaler,
    snd (fst (setWaveformFrequency undef Timer16 s)) =
      [Synth_Timer16_SetReloadValue reload prescaler] /\
    2 <= reload < 65536 /\
    1 <= prescaler /\
    prescaler = Z.shiftr (clipped_ticks undef s) 16 + 1 /\
    (1 < prescaler -> reload = clipped_ticks undef s / prescaler) /\
    (prescaler = 1 -> reload = clipped_ticks undef s).
Proof.
  intros Hw.
  pose proof (clipped_ticks_range undef s) as Hr.
  exists (reload_of (clipped_ticks undef s)), (prescaler_of (clipped_ticks undef s)).
  split; [|split; [|split; [|split; [|split]]]].
  - unfold setWaveformFrequency. rewrite Hw. reflexivity.
  - apply reload_of_range; exact Hr.
  - apply prescaler_of_range; lia.
  - rewrite prescaler_of_div by lia. rewrite Z.shiftr_div_pow2 by lia. reflexivity.
  - intros Hp. unfold reload_of.
    replace (1 <? prescaler_of (clipped_ticks undef s)) with true
      by (symmetry; apply Z.ltb_lt; exact Hp).
    apply Z.quot_div_nonneg; lia.
  - intros Hp. unfold reload_of. rewrite Hp. reflexivity.
Qed.

Lemma reload16_bounds_witness :
  exists reload prescaler,
    snd (fst (setWaveformFrequency arm_saturate Timer16 info_1Hz)) =
      [Synth_Timer16_SetReloadValue reload prescaler] /\
    2 <= reload < 65536 /\
    1 <= prescaler /\
    prescaler = Z.shiftr (clipped_ticks arm_saturate info_1Hz) 16 + 1 /\
    (1 < prescaler -> reload = clipped_ticks arm_saturate info_1Hz / prescaler) /\
    (prescaler = 1 -> reload = clipped_ticks arm_saturate info_1Hz).
Proof.
  apply (reload16_bounds arm_saturate info_1Hz). reflexivity.
Defined.

(** C5 fails at 1 Hz: 36 000 000 ticks give the prescaler 550. *)
Lemma prescaler_is_selector_fails :
  ~ prescaler_is_selector arm_saturate info_1Hz.
Proof.
  intros H. specialize (H 65454 550 (or_introl eq_refl)).
  simpl in H. intuition discriminate.
Qed.

(** C5 (amended): on the 16 bit timer the prescaler given to the driver
    is the value (ticks >> 16) + 1 itself, between 1 and 65536, with the
    reload ticks / prescaler; the product of the two, at most ticks, is
    what is stored. *)
Theorem prescaler_continuous undef s :
  Waveform s = WAVEFORM_SQUARE ->
  let ticks := clipped_ticks undef s in
  let prescaler := Z.shiftr ticks 16 + 1 in
  let reload := ticks / prescaler in
  1 <= prescaler <= 65536 /\
  snd (fst (setWaveformFrequency undef Timer16 s)) =
    [Synth_Timer16_SetReloadValue reload prescaler] /\
  DividerInt (fst (fst (setWaveformFrequency undef Timer16 s))) = reload * prescaler /\
  reload * prescaler <= ticks.
Proof.
  intros Hw ticks prescaler reload.
  pose proof (clipped_ticks_range undef s) as Hr. fold ticks in Hr.
  assert (Hp : prescaler_of ticks = prescaler).
  { rewrite prescaler_of_div by lia. unfold prescaler.
    rewrite Z.shiftr_div_pow2 by lia. reflexivity. }
  assert (Hrl : reload_of ticks = reload).
  { unfold reload_of. rewrite Hp. unfold reload.
    destruct (1 <? prescaler) eqn:E.
    - apply Z.quot_div_nonneg; [lia|]. apply Z.ltb_lt in E. lia.
    - apply Z.ltb_ge in E.
      pose proof (prescaler_of_range ticks ltac:(lia)) as Hpr. rewrite Hp in Hpr.
      replace prescaler with 1 by lia. symmetry. apply Z.div_1_r. }
  pose proof (prescaler_of_range ticks ltac:(lia)) as Hpr.
  pose proof (reload_times_prescaler ticks Hr) as Hprod.
  rewrite Hp in Hpr. rewrite Hp, Hrl in Hprod.
  split; [exact Hpr|]. 
  unfold setWaveformFrequency. rewrite Hw. simpl waveform_eqb. cbv iota.
  fold (clipped_ticks undef s). fold ticks. rewrite Hp, Hrl. simpl.
  split; [reflexivity|]. split; [|lia].
  unfold uint32. apply Z.mod_small. lia.
Qed.

Lemma prescaler_continuous_witness :
  snd (fst (setWaveformFrequency arm_saturate Timer16 info_1Hz)) =
    [Synth_Timer16_SetReloadValue 65454 550].
Proof.
  pose proof (prescaler_continuous arm_saturate info_1Hz eq_refl) as H.
  cbv zeta in H. destruct H as [_ [H _]].
  rewrite H. vm_compute. reflexivity.
Defined.

(** ** setFrequency *)

Lemma normalize_loop_more n : forall x idx r,
  normalize_loop n x idx = Some r ->
  forall m, (n <= m)%nat -> normalize_loop m x idx = Some r.
Proof.
  induction n as [|n IH]; intros x idx r H m Hm; [discriminate H|].
  destruct m as [|m]; [lia|].
  simpl in *. destruct (F32.ltb f1000 x).
  - apply IH; [exact H | lia].
  - exact H.
Qed.

Lemma valid_magnitude m e :
  F32.valid (S754_finite false m e) = true -> mag (S754_finite false m e) <= 128.
Proof.
  unfold F32.valid, valid_binary, bounded, canonical_mantissa. intros H.
  apply andb_true_iff in H. destruct H as [H1 H2].
  apply Z.eqb_eq in H1. apply Z.leb_le in H2.
  rewrite Binary32.fexp_eq in H1. unfold F32.emax, F32.prec in H2.
  unfold mag. change (Zdigits2 (Z.pos m)) with (Z.pos (digits2_pos m)). lia.
Qed.

Lemma iter_next_index k : (k <= 200)%nat -> Nat.iter k next_index 1 = 1 + Z.of_nat k.
Proof.
  induction k as [|k IH]; intros H; [reflexivity|].
  simpl Nat.iter. rewrite IH by lia. unfold next_index, uint8.
  rewrite Z.mod_small; lia.
Qed.

Lemma factor_loop_pow n : forall t,
  0 <= t < 2 ^ 32 -> factor_loop n t = uint32 (t * 1000 ^ Z.of_nat n).
Proof.
  induction n as [|n IH]; intros t Ht.
  - simpl. unfold uint32. rewrite Z.mul_1_r. symmetry. apply Z.mod_small. exact Ht.
  - simpl factor_loop. rewrite IH by (unfold uint32; apply Z.mod_pos_bound; lia).
    unfold uint32. rewrite Nat2Z.inj_succ, Z.pow_succ_r by lia.
    rewrite Z.mul_mod_idemp_l by lia. f_equal. lia.
Qed.

Lemma setWaveformFrequency_fields undef tim s :
  let s' := fst (fst (setWaveformFrequency undef tim s)) in
  Frequency s' = Frequency s /\
  FrequencyFactorIndex s' = FrequencyFactorIndex s /\
  FrequencyFactorTimes1000 s' = FrequencyFactorTimes1000 s /\
  Waveform s' = Waveform s.
Proof.
  unfold setWaveformFrequency.
  destruct (waveform_eqb (Waveform s) WAVEFORM_SQUARE); [|simpl; auto].
  destruct tim; simpl; auto.
Qed.

(** C3 fails at 1000: the loop body does not run and 1000 Hz is stored,
    not 1 kHz. *)
Lemma autoscale_as_specified_fails :
  ~ autoscale_as_specified arm_saturate Timer32 f1000 info_2000Hz.
Proof.
  intros H. destruct (H 2%nat f1 2 eq_refl) as [s' [cs [Hs [Hf Hi]]]].
  vm_compute in Hs. inversion Hs; subst s'. vm_compute in Hi. discriminate Hi.
Qed.

(** C3 (amended): for a square wave and every positive finite f,
    setFrequency divides f by 1000 and advances the decade index, from 1,
    while the value is greater than 1000 (k times, k <= 18); if the value
    it arrives at is below 1 it is multiplied by 1000 once and the index
    is 0.  The value and the index are stored, with the factor 1000^index
    (as a uint32_t), and translated.  For f = 1000 the loop body does not
    run (k = 0). *)
Theorem autoscale undef tim f s :
  Waveform s = WAVEFORM_SQUARE ->
  F32.is_pos_finite f = true ->
  F32.valid f = true ->
  exists k : nat,
    (k <= 18)%nat /\
    (forall j, (j < k)%nat -> F32.ltb f1000 (div1000 j f) = true) /\
    F32.ltb f1000 (div1000 k f) = false /\
    let v := div1000 k f in
    let stored := if F32.ltb v f1 then F32.mul v f1000 else v in
    let index := if F32.ltb v f1 then 0 else 1 + Z.of_nat k in
    forall fuel, (19 <= fuel)%nat ->
      exists s' cs,
        setFrequency undef tim fuel f s = Some (s', cs) /\
        Frequency s' = stored /\
        FrequencyFactorIndex s' = index /\
        FrequencyFactorTimes1000 s' = uint32 (1000 ^ index) /\
        (s', cs) = fst (setWaveformFrequency undef tim
                          (set_Frequency stored (setFrequencyFactor index s))).
Proof.
  intros Hw Hpos Hval.
  destruct f as [sf|sf| |sf m e]; try discriminate Hpos.
  destruct sf; [discriminate Hpos|].
  pose proof (valid_magnitude m e Hval) as Hmag.
  destruct (normalize_loop_ends 18 (S754_finite false m e) 1 eq_refl ltac:(lia) ltac:(lia))
    as [k [Hk [Hrun [Hend Hall]]]].
  exists k. split; [exact Hk|]. split; [exact Hall|]. split; [exact Hend|].
  intros v stored index fuel Hfuel.
  pose proof (normalize_loop_more _ _ _ _ Hrun fuel Hfuel) as Hrun'.
  rewrite iter_next_index in Hrun' by lia. fold v in Hrun'.
  set (s1 := set_Frequency stored (setFrequencyFactor index s)).
  assert (Hset : setFrequency undef tim fuel (S754_finite false m e) s =
                 Some (fst (setWaveformFrequency undef tim s1))).
  { unfold setFrequency. rewrite Hw. simpl waveform_eqb. cbv iota.
    rewrite Hrun'. unfold s1, stored, index.
    destruct (F32.ltb v f1); reflexivity. }
  destruct (setWaveformFrequency undef tim s1) as [[s' cs] err] eqn:E.
  exists s', cs. split; [exact Hset|].
  pose proof (setWaveformFrequency_fields undef tim s1) as Hf.
  rewrite E in Hf. simpl in Hf. destruct Hf as [Hf1 [Hf2 [Hf3 _]]].
  assert (Hidx : 0 <= index <= 19) by (unfold index; destruct (F32.ltb v f1); lia).
  split; [rewrite Hf1; reflexivity|].
  split; [rewrite Hf2; unfold s1; simpl; unfold uint8; apply Z.mod_small; lia|].
  split; [|reflexivity].
  rewrite Hf3. unfold s1. simpl.
  rewrite factor_loop_pow by lia. rewrite Z2Nat.id by lia. f_equal. lia.
Qed.

Lemma autoscale_witness :
  exists s' cs,
    setFrequency arm_saturate Timer32 19 f1000 info_2000Hz = Some (s', cs) /\
    Frequency s' = f1000 /\ FrequencyFactorIndex s' = 1.
Proof.
  destruct (autoscale arm_saturate Timer32 f1000 info_2000Hz eq_refl eq_refl eq_refl)
    as [k [_ [Hall [_ H]]]].
  assert (k = O) as ->.
  { destruct k; [reflexivity|]. specialize (Hall O ltac:(lia)). discriminate Hall. }
  destruct (H 19%nat ltac:(lia)) as [s' [cs [H1 [H2 [H3 _]]]]].
  exists s', cs. split; [exact H1|]. split; [exact H2 | exact H3].
Defined.

(** ** Number entry *)

Lemma page_200Hz_reached :
  initFrequencyGeneratorPage arm_saturate Timer32 19 boot = Some page_200Hz.
Proof. vm_compute. reflexivity. Qed.

Lemma lt_1_not_gt_1000 v : F32.ltb v f1 = true -> F32.ltb f1000 v = false.
Proof.
  unfold F32.ltb, SFltb.
  change f1 with (S754_finite false 8388608 (-23)).
  change f1000 with (S754_finite false 16384000 (-14)).
  destruct v as [s|s| |s m e]; cbv beta iota delta [SFcompare]; try discriminate; try reflexivity.
  - destruct s; [reflexivity | discriminate].
  - destruct s; [reflexivity|].
    destruct (Z.compare_spec e (-23)); try discriminate;
      destruct (Z.compare_spec (-14) e); try reflexivity; lia.
Qed.

(** C9 fails: the entry -5 is stored, as -5000 mHz. *)
Lemma invalid_entry_ignored_fails : ~ invalid_entry_ignored.
Proof.
  intros H.
  specialize (H arm_saturate Timer32 log10f_at_5 1%nat (F32.of_Z (-5)) page_200Hz _
                eq_refl eq_refl).
  vm_compute in H. discriminate H.
Qed.

Lemma normalize_loop_infinity fuel : forall idx,
  normalize_loop fuel (S754_infinity false) idx = None.
Proof.
  induction fuel as [|n IH]; intros idx; [reflexivity|].
  rewrite normalize_loop_step by (vm_compute; reflexivity).
  replace (F32.div (S754_infinity false) f1000) with (S754_infinity false)
    by (vm_compute; reflexivity).
  apply IH.
Qed.

Lemma doGetFrequency_info undef tim log10f v p :
  sFrequencyInfo (doGetFrequency undef tim log10f v p)
  = fst (fst (setWaveformFrequency undef tim
                (if negb (F32.is_nan v) then set_Frequency v (sFrequencyInfo p)
                 else sFrequencyInfo p))).
Proof.
  unfold doGetFrequency, SetWaveformFrequencyAndPrintValues. cbv zeta.
  set (s0 := if negb (F32.is_nan v) then set_Frequency v (sFrequencyInfo p)
             else sFrequencyInfo p).
  change (sFrequencyInfo (print undef log10f (with_info s0 p))) with s0.
  destruct (setWaveformFrequency undef tim s0) as [[s' cs] err].
  reflexivity.
Qed.

(** C9 (amended): a number entry is not validated, and no entry is
    ignored but the cancel of the number pad.  In the build without local
    display, for a square wave, an entry v < 1 (every v <= 0 and
    -infinity) is stored as v * 1000 with the decade index 0 and the
    factor 1, NaN is stored as it is in the decade Hz, both are
    translated, and for +infinity the loop of setFrequency never ends,
    whatever the fuel.  In the build with local display NaN (cancel)
    leaves the target frequency, the decade index and the factor as they
    are, the reload being translated from them again, and every other
    entry, v <= 0 and the infinities among them, is stored as it is in
    the decade the page is in, and translated.  Every entry that is not
    a positive finite number is less than 1, NaN or +infinity. *)
Theorem numeric_entry_unchecked undef tim log10f fuel v p :
  (F32.is_pos_finite v = false ->
   F32.ltb v f1 = true \/ F32.is_nan v = true \/ v = S754_infinity false) /\
  (Waveform (sFrequencyInfo p) = WAVEFORM_SQUARE -> (1 <= fuel)%nat ->
   F32.ltb v f1 = true ->
   exists p',
     doSetFrequency undef tim log10f fuel v p = Some p' /\
     sFrequencyInfo p' =
       fst (fst (setWaveformFrequency undef tim
                   (set_Frequency (F32.mul v f1000)
                      (setFrequencyFactor 0 (sFrequencyInfo p))))) /\
     Frequency (sFrequencyInfo p') = F32.mul v f1000 /\
     FrequencyFactorIndex (sFrequencyInfo p') = 0 /\
     FrequencyFactorTimes1000 (sFrequencyInfo p') = 1) /\
  (Waveform (sFrequencyInfo p) = WAVEFORM_SQUARE -> (1 <= fuel)%nat ->
   F32.is_nan v = true ->
   exists p',
     doSetFrequency undef tim log10f fuel v p = Some p' /\
     sFrequencyInfo p' =
       fst (fst (setWaveformFrequency undef tim
                   (set_Frequency v (setFrequencyFactor 1 (sFrequencyInfo p))))) /\
     Frequency (sFrequencyInfo p') = v /\
     FrequencyFactorIndex (sFrequencyInfo p') = 1 /\
     FrequencyFactorTimes1000 (sFrequencyInfo p') = 1000) /\
  (Waveform (sFrequencyInfo p) = WAVEFORM_SQUARE ->
   v = S754_infinity false ->
   doSetFrequency undef tim log10f fuel v p = None) /\
  (F32.is_nan v = false ->
   let p' := doGetFrequency undef tim log10f v p in
   sFrequencyInfo p' =
     fst (fst (setWaveformFrequency undef tim (set_Frequency v (sFrequencyInfo p)))) /\
   Frequency (sFrequencyInfo p') = v /\
   FrequencyFactorIndex (sFrequencyInfo p') = FrequencyFactorIndex (sFrequencyInfo p) /\
   FrequencyFactorTimes1000 (sFrequencyInfo p') = FrequencyFactorTimes1000 (sFrequencyInfo p)) /\
  (F32.is_nan v = true ->
   let p' := doGetFrequency undef tim log10f v p in
   sFrequencyInfo p' = fst (fst (setWaveformFrequency undef tim (sFrequencyInfo p))) /\
   Frequency (sFrequencyInfo p') = Frequency (sFrequencyInfo p) /\
   FrequencyFactorIndex (sFrequencyInfo p') = FrequencyFactorIndex (sFrequencyInfo p) /\
   FrequencyFactorTimes1000 (sFrequencyInfo p') = FrequencyFactorTimes1000 (sFrequencyInfo p)).
Proof.
  split; [|split; [|split; [|split; [|split]]]].
  - intros Hv. change f1 with (S754_finite false 8388608 (-23)).
    destruct v as [s|s| |s m e].
    + left. destruct s; reflexivity.
    + destruct s; [left; reflexivity | right; right; reflexivity].
    + right. left. reflexivity.
    + destruct s; [left; reflexivity | discriminate Hv].
  - intros Hw Hfuel Hlt. destruct fuel as [|n]; [lia|].
    unfold doSetFrequency, setFrequency. rewrite Hw. cbn [waveform_eqb].
    rewrite normalize_loop_stop by (apply lt_1_not_gt_1000; exact Hlt).
    rewrite Hlt.
    pose proof (setWaveformFrequency_fields undef tim
                  (set_Frequency (F32.mul v f1000)
                     (setFrequencyFactor 0 (sFrequencyInfo p)))) as Hf.
    cbv zeta in Hf.
    destruct (setWaveformFrequency undef tim
                (set_Frequency (F32.mul v f1000)
                   (setFrequencyFactor 0 (sFrequencyInfo p)))) as [[s' cs] err].
    cbn [fst snd] in Hf |- *. destruct Hf as [Hf1 [Hf2 [Hf3 _]]].
    eexists. split; [reflexivity|]. split; [reflexivity|].
    split; [exact Hf1|]. split; [exact Hf2 | exact Hf3].
  - intros Hw Hfuel Hnan. destruct fuel as [|n]; [lia|].
    destruct v; try discriminate Hnan.
    unfold doSetFrequency, setFrequency. rewrite Hw. cbn [waveform_eqb].
    rewrite normalize_loop_stop by reflexivity.
    replace (F32.ltb S754_nan f1) with false by reflexivity.
    pose proof (setWaveformFrequency_fields undef tim
                  (set_Frequency S754_nan
                     (setFrequencyFactor 1 (sFrequencyInfo p)))) as Hf.
    cbv zeta in Hf.
    destruct (setWaveformFrequency undef tim
                (set_Frequency S754_nan
                   (setFrequencyFactor 1 (sFrequencyInfo p)))) as [[s' cs] err].
    cbn [fst snd] in Hf |- *. destruct Hf as [Hf1 [Hf2 [Hf3 _]]].
    eexists. split; [reflexivity|]. split; [reflexivity|].
    split; [exact Hf1|]. split; [exact Hf2 | exact Hf3].
  - intros Hw ->.
    unfold doSetFrequency, setFrequency. rewrite Hw. cbn [waveform_eqb].
    rewrite normalize_loop_infinity. reflexivity.
  - intros Hnan p'. unfold p'. rewrite doGetFrequency_info, Hnan. cbn [negb].
    split; [reflexivity|].
    destruct (setWaveformFrequency_fields undef tim (set_Frequency v (sFrequencyInfo p)))
      as [Hf1 [Hf2 [Hf3 _]]].
    split; [exact Hf1|]. split; [exact Hf2 | exact Hf3].
  - intros Hnan p'. unfold p'. rewrite doGetFrequency_info, Hnan. cbn [negb].
    split; [reflexivity|].
    destruct (setWaveformFrequency_fields undef tim (sFrequencyInfo p))
      as [Hf1 [Hf2 [Hf3 _]]].
    split; [exact Hf1|]. split; [exact Hf2 | exact Hf3].
Qed.

Lemma numeric_entry_unchecked_witness :
  (F32.ltb (F32.of_Z (-5)) f1 = true \/ F32.is_nan (F32.of_Z (-5)) = true
   \/ F32.of_Z (-5) = S754_infinity false) /\
  (exists p',
     doSetFrequency arm_saturate Timer32 log10f_at_5 1 (F32.of_Z (-5)) page_200Hz = Some p' /\
     sFrequencyInfo p' =
       fst (fst (setWaveformFrequency arm_saturate Timer32
                   (set_Frequency (F32.mul (F32.of_Z (-5)) f1000)
                      (setFrequencyFactor 0 (sFrequencyInfo page_200Hz))))) /\
     Frequency (sFrequencyInfo p') = F32.mul (F32.of_Z (-5)) f1000 /\
     FrequencyFactorIndex (sFrequencyInfo p') = 0 /\
     FrequencyFactorTimes1000 (sFrequencyInfo p') = 1) /\
  (exists p',
     doSetFrequency arm_saturate Timer32 log10f_at_5 1 S754_nan page_200Hz = Some p' /\
     sFrequencyInfo p' =
       fst (fst (setWaveformFrequency arm_saturate Timer32
                   (set_Frequency S754_nan
                      (setFrequencyFactor 1 (sFrequencyInfo page_200Hz))))) /\
     Frequency (sFrequencyInfo p') = S754_nan /\
     FrequencyFactorIndex (sFrequencyInfo p') = 1 /\
     FrequencyFactorTimes1000 (sFrequencyInfo p') = 1000) /\
  doSetFrequency arm_saturate Timer32 log10f_at_5 19 (S754_infinity false) page_200Hz = None /\
  (let p' := doGetFrequency arm_saturate Timer32 log10f_at_5 (S754_infinity true) page_200Hz in
   sFrequencyInfo p' =
     fst (fst (setWaveformFrequency arm_saturate Timer32
                 (set_Frequency (S754_infinity true) (sFrequencyInfo page_200Hz)))) /\
   Frequency (sFrequencyInfo p') = S754_infinity true /\
   FrequencyFactorIndex (sFrequencyInfo p') = FrequencyFactorIndex (sFrequencyInfo page_200Hz) /\
   FrequencyFactorTimes1000 (sFrequencyInfo p')
     = FrequencyFactorTimes1000 (sFrequencyInfo page_200Hz)) /\
  (let p' := doGetFrequency arm_saturate Timer32 log10f_at_5 S754_nan page_200Hz in
   sFrequencyInfo p' =
     fst (fst (setWaveformFrequency arm_saturate Timer32 (sFrequencyInfo page_200Hz))) /\
   Frequency (sFrequencyInfo p') = Frequency (sFrequencyInfo page_200Hz) /\
   FrequencyFactorIndex (sFrequencyInfo p') = FrequencyFactorIndex (sFrequencyInfo page_200Hz) /\
   FrequencyFactorTimes1000 (sFrequencyInfo p')
     = FrequencyFactorTimes1000 (sFrequencyInfo page_200Hz)).
Proof.
  split; [|split; [|split; [|split; [|split]]]].
  - apply (proj1 (numeric_entry_unchecked arm_saturate Timer32 log10f_at_5 1
                    (F32.of_Z (-5)) page_200Hz)).
    reflexivity.
  - apply (proj1 (proj2 (numeric_entry_unchecked arm_saturate Timer32 log10f_at_5 1
                           (F32.of_Z (-5)) page_200Hz))).
    + reflexivity.
    + apply le_n.
    + vm_compute. reflexivity.
  - apply (proj1 (proj2 (proj2 (numeric_entry_unchecked arm_saturate Timer32 log10f_at_5 1
                                  S754_nan page_200Hz)))).
    + reflexivity.
    + apply le_n.
    + reflexivity.
  - apply (proj1 (proj2 (proj2 (proj2
             (numeric_entry_unchecked arm_saturate Timer32 log10f_at_5 19
                (S754_infinity false) page_200Hz))))).
    + reflexivity.
    + reflexivity.
  - apply (proj1 (proj2 (proj2 (proj2 (proj2
             (numeric_entry_unchecked arm_saturate Timer32 log10f_at_5 1
                (S754_infinity true) page_200Hz)))))).
    reflexivity.
  - apply (proj2 (proj2 (proj2 (proj2 (proj2
             (numeric_entry_unchecked arm_saturate Timer32 log10f_at_5 1
                S754_nan page_200Hz)))))).
    reflexivity.
Defined.

(** ** The slider position *)

(** C10: after the start of the page (10 Hz range) and the number entry
    5, the stored frequency 5 is below 10 and, log10f(5) * 100 truncating
    to some v < 100 (69 with an accurate log10f), the subtraction of 100
    wraps in the uint16_t: the slider is given v + 65436, far beyond 300. *)
Theorem slider_underflow undef tim log10f v :
  float_to_unsigned undef 16 (F32.mul (log10f (F32.of_Z 5)) (F32.of_Z 100)) = v ->
  v < 100 ->
  exists p0 p,
    initFrequencyGeneratorPage undef tim 19 boot = Some p0 /\
    doSetFrequency undef tim log10f 19 (F32.of_Z 5) p0 = Some p /\
    is10HzRange p = true /\
    Frequency (sFrequencyInfo p) = F32.of_Z 5 /\
    F32.ltb (Frequency (sFrequencyInfo p)) (F32.of_Z 10) = true /\
    option_map sliderValue (shown p) = Some (v + 65436) /\
    300 < v + 65436.
Proof.
  intros Hv Hlt.
  pose proof (float_to_unsigned_range undef 16
                (F32.mul (log10f (F32.of_Z 5)) (F32.of_Z 100)) ltac:(lia)) as Hr.
  rewrite Hv in Hr.
  assert (Hwrap : uint16 (v - 100) = v + 65436).
  { unfold uint16. change (2 ^ 16) with 65536 in *.
    symmetry. apply Z.mod_unique with (q := -1); lia. }
  destruct tim.
  - eexists. eexists.
    split; [vm_compute; reflexivity|].
    split; [unfold doSetFrequency; vm_compute setFrequency; reflexivity|].
    split; [reflexivity|]. split; [reflexivity|]. split; [vm_compute; reflexivity|].
    split; [|lia].
    simpl. unfold printFrequencyAndPeriod. simpl. f_equal.
    rewrite <- Hwrap, <- Hv. reflexivity.
  - eexists. eexists.
    split; [vm_compute; reflexivity|].
    split; [unfold doSetFrequency; vm_compute setFrequency; reflexivity|].
    split; [reflexivity|]. split; [reflexivity|]. split; [vm_compute; reflexivity|].
    split; [|lia].
    simpl. unfold printFrequencyAndPeriod. simpl. f_equal.
    rewrite <- Hwrap, <- Hv. reflexivity.
Qed.

Lemma slider_underflow_witness :
  exists p0 p,
    initFrequencyGeneratorPage arm_saturate Timer32 19 boot = Some p0 /\
    doSetFrequency arm_saturate Timer32 log10f_at_5 19 (F32.of_Z 5) p0 = Some p /\
    is10HzRange p = true /\
    Frequency (sFrequencyInfo p) = F32.of_Z 5 /\
    F32.ltb (Frequency (sFrequencyInfo p)) (F32.of_Z 10) = true /\
    option_map sliderValue (shown p) = Some (69 + 65436) /\
    300 < 69 + 65436.
Proof.
  apply (slider_underflow arm_saturate Timer32 log10f_at_5 69).
  - vm_compute. reflexivity.
  - reflexivity.
Defined.

(** ** The realized frequency *)

(** C8 fails at 2 kHz: the realized frequency is 2 (kHz), the claim
    compares it with 2000. *)
Lemma quantization_as_specified_fails :
  ~ quantization_as_specified arm_saturate log10f_at_5 info_2kHz.
Proof.
  intros H. specialize (H eq_refl). vm_compute in H. apply H. reflexivity.
Qed.

Lemma timer_clock_float undef fac : In fac decade_factors ->
  exists mk ek,
    F32.of_Z (lldiv undef 36000000000 fac) = S754_finite false mk ek /\
    (36 <= F2Q (S754_finite false mk ek))%Q /\
    (F2Q (S754_finite false mk ek) <= 36000000000)%Q.
Proof.
  unfold decade_factors. simpl.
  intros [<-|[<-|[<-|[<-|[]]]]].
  - exists 8789062%positive, 12. split; [vm_compute; reflexivity|].
    split; vm_compute; discriminate.
  - exists 9000000%positive, 2. split; [vm_compute; reflexivity|].
    split; vm_compute; discriminate.
  - exists 9216000%positive, (-8). split; [vm_compute; reflexivity|].
    split; vm_compute; discriminate.
  - exists 9437184%positive, (-18). split; [vm_compute; reflexivity|].
    split; vm_compute; discriminate.
Qed.

(** Without the allowance for the rounding of the float operations the
    bound fails also in one unit: at 1.9 Hz the reload is 18 947 368 and
    the frequency computed back is the float after 1.9. *)
Lemma quantization_needs_allowance :
  let s := mkFrequencyInfo 0 0 (S754_finite false 15938355 (-23)) 1000 1 WAVEFORM_SQUARE true in
  let '(s', _, clipped) := setWaveformFrequency arm_saturate Timer32 s in
  clipped = false /\ DividerInt s' = 18947368 /\
  ~ (Qabs (F2Q (shownFrequency (printFrequencyAndPeriod arm_saturate log10f_at_5 s' false))
           - F2Q (Frequency s)) / F2Q (Frequency s)
     <= 1 / inject_Z (DividerInt s'))%Q.
Proof.
  vm_compute. split; [reflexivity|]. split; [reflexivity|].
  intros H. apply H. reflexivity.
Qed.

(** On the 16 bit timer the stored product reload * prescaler falls
    short of the tick count, and the bound fails by far: at 1 Hz the
    product is 35 999 700 for 36 000 000 ticks. *)
Lemma quantization_16bit_fails :
  let '(s', _, clipped) := setWaveformFrequency arm_saturate Timer16 info_1Hz in
  clipped = false /\ DividerInt s' = 35999700 /\
  ~ (Qabs (F2Q (shownFrequency (printFrequencyAndPeriod arm_saturate log10f_at_5 s' false))
           - F2Q (Frequency info_1Hz)) / F2Q (Frequency info_1Hz)
     <= 1 / inject_Z (DividerInt s') + (1 # 1048576))%Q.
Proof.
  vm_compute. split; [reflexivity|]. split; [reflexivity|].
  intros H. apply H. reflexivity.
Qed.

(** C8 (amended): on the 32 bit timer, for a square wave in one of the
    four decades and a positive finite target whose truncated tick count
    n is at least 2 and fits 32 bits, the translation does not clip, the
    stored reload is n, and the frequency the page computes back from the
    reload is a finite float with
    |realized - target| / target <= 1 / n + 2^-20,
    both frequencies in the unit of the decade. *)
Theorem quantization_bound undef log10f s n is10 :
  Waveform s = WAVEFORM_SQUARE ->
  In (FrequencyFactorTimes1000 s) decade_factors ->
  F32.is_pos_finite (Frequency s) = true ->
  F32.trunc (tPeriod undef s) = Some n ->
  2 <= n < 2 ^ 32 ->
  let r := setWaveformFrequency undef Timer32 s in
  let s' := fst (fst r) in
  snd r = false /\
  DividerInt s' = n /\
  exists p e,
    shownFrequency (printFrequencyAndPeriod undef log10f s' is10) = S754_finite false p e /\
    (Qabs (F2Q (S754_finite false p e) - F2Q (Frequency s)) / F2Q (Frequency s)
     <= 1 / inject_Z n + (1 # 1048576))%Q.
Proof.
  intros Hw Hfac Hpos Ht Hn r s'.
  assert (Hcast : float_to_unsigned undef 32 (tPeriod undef s) = n)
    by (apply float_to_unsigned_in_range; [exact Ht | lia]).
  assert (Hr : r = (set_DividerInt n s, [Synth_Timer32_SetReloadValue n], false)).
  { unfold r, setWaveformFrequency. rewrite Hw. simpl waveform_eqb. cbv iota.
    rewrite Hcast.
    replace (n <? 2) with false by (symmetry; apply Z.ltb_ge; lia). reflexivity. }
  unfold s'. rewrite Hr. simpl fst. simpl snd.
  split; [reflexivity|]. split; [reflexivity|].
  unfold printFrequencyAndPeriod. simpl shownFrequency.
  destruct (timer_clock_float undef _ Hfac) as [mk [ek [HK [HK1 HK2]]]].
  unfold tPeriod in Ht. rewrite HK in *.
  destruct (Frequency s) as [sf|sf| |sf mt et]; try discriminate Hpos.
  destruct sf; [discriminate Hpos|].
  destruct (F32.div (S754_finite false mk ek) (S754_finite false mt et))
    as [sq|sq| |sq pq eq] eqn:Eq; try discriminate Ht.
  { simpl in Ht. inversion Ht. lia. }
  pose proof (Binary32Q.div_pos_sign _ _ _ _ _ _ _ Eq) as ->.
  destruct (Binary32Q.trunc_bounds pq eq n Ht) as [_ [HA1 HA2]].
  assert (HN2 : (2 <= inject_Z n)%Q)
    by (change 2%Q with (inject_Z 2); rewrite <- Zle_Qle; lia).
  assert (HN32 : (inject_Z n <= 4294967296)%Q)
    by (change 4294967296%Q with (inject_Z 4294967296); rewrite <- Zle_Qle;
        change (2 ^ 32) with 4294967296 in Hn; lia).
  assert (Hsmall : (pow2 (-125) == 1 # 42535295865117307932921825928971026432)%Q)
    by reflexivity.
  assert (Hlarge : (pow2 126 == 85070591730234615865843651857942052864)%Q)
    by reflexivity.
  destruct (Binary32Q.div_finite_rel mk ek mt et false pq eq Eq) as [_ [H1a H1b]].
  { rewrite Hsmall. lra. }
  destruct (Binary32Q.of_Z_rel n) as [pp [ep [HP [H3a H3b]]]].
  { change (2 ^ 64) with 18446744073709551616.
    change (2 ^ 32) with 4294967296 in Hn. lia. }
  rewrite HP.
  pose proof (Binary32Q.F2Q_pos pp ep) as HPpos.
  unfold ulp_rel in H3a, H3b.
  destruct (Binary32Q.div_rel mk ek pp ep) as [pf [ef [HF [H4a H4b]]]].
  { rewrite Hsmall. lra. }
  { rewrite Hlarge. lra. }
  exists pf, ef. split; [exact HF|].
  apply (Binary32Q.quantization_arith
           (F2Q (S754_finite false mk ek)) (F2Q (S754_finite false mt et))
           (F2Q (S754_finite false pq eq)) (inject_Z n)
           (F2Q (S754_finite false pp ep)) (F2Q (S754_finite false pf ef)));
    try assumption.
  - apply Binary32Q.F2Q_pos.
  - apply Qlt_le_weak, Binary32Q.F2Q_pos.
Qed.

Lemma quantization_bound_witness :
  let r := setWaveformFrequency arm_saturate Timer32 info_2000Hz in
  let s' := fst (fst r) in
  snd r = false /\
  DividerInt s' = 18000 /\
  exists p e,
    shownFrequency (printFrequencyAndPeriod arm_saturate log10f_at_5 s' false)
      = S754_finite false p e /\
    (Qabs (F2Q (S754_finite false p e) - F2Q (Frequency info_2000Hz))
       / F2Q (Frequency info_2000Hz)
     <= 1 / inject_Z 18000 + (1 # 1048576))%Q.
Proof.
  apply (quantization_bound arm_saturate log10f_at_5 info_2000Hz 18000 false).
  - reflexivity.
  - simpl. right. left. reflexivity.
  - reflexivity.
  - vm_compute. reflexivity.
  - split; [discriminate | reflexivity].
Defined.

(** ** Further properties of the translation *)

Lemma setFrequencyFactor_decade idx s :
  0 <= idx <= 3 ->
  setFrequencyFactor idx s =
    mkFrequencyInfo (DividerInt s) (PeriodMicros s) (Frequency s) (1000 ^ idx) idx
      (Waveform s) (isOutputEnabled s).
Proof.
  intros H.
  assert (C : idx = 0 \/ idx = 1 \/ idx = 2 \/ idx = 3) by lia.
  destruct C as [->|[->|[->| ->]]]; reflexivity.
Qed.

(** X1: setFrequencyFactor computes the factor in a uint32_t: it is
    1000^index exactly for the indexes 0..3 and for no other, and it is 0
    from the index 11 on and for no smaller one, 1000^11 being a multiple
    of 2^32. *)
Theorem decade_factor_wraps idx s :
  0 <= idx ->
  let factor := FrequencyFactorTimes1000 (setFrequencyFactor idx s) in
  factor = 1000 ^ idx mod 2 ^ 32 /\
  (factor = 1000 ^ idx <-> idx <= 3) /\
  (factor = 0 <-> 11 <= idx).
Proof.
  intros H0 factor.
  assert (Hf : factor = 1000 ^ idx mod 2 ^ 32).
  { unfold factor, setFrequencyFactor. simpl.
    rewrite factor_loop_pow by lia. rewrite Z2Nat.id by lia. rewrite Z.mul_1_l.
    reflexivity. }
  split; [exact Hf|]. rewrite Hf. split; split.
  - intros He. destruct (Z_le_gt_dec idx 3) as [H|H]; [exact H|exfalso].
    pose proof (Z.mod_pos_bound (1000 ^ idx) (2 ^ 32) ltac:(lia)) as Hb.
    assert (1000 ^ 4 <= 1000 ^ idx) by (apply Z.pow_le_mono_r; lia).
    change (1000 ^ 4) with 1000000000000 in *. change (2 ^ 32) with 4294967296 in *. lia.
  - intros H.
    assert (C : idx = 0 \/ idx = 1 \/ idx = 2 \/ idx = 3) by lia.
    destruct C as [->|[->|[->| ->]]]; reflexivity.
  - intros Hz. destruct (Z_le_gt_dec 11 idx) as [Hge|Hlt]; [exact Hge|exfalso].
    assert (C : idx = 0 \/ idx = 1 \/ idx = 2 \/ idx = 3 \/ idx = 4 \/ idx = 5 \/
                idx = 6 \/ idx = 7 \/ idx = 8 \/ idx = 9 \/ idx = 10) by lia.
    destruct C as [->|[->|[->|[->|[->|[->|[->|[->|[->|[->| ->]]]]]]]]]];
      vm_compute in Hz; discriminate Hz.
  - intros Hge.
    replace idx with (11 + (idx - 11)) by lia.
    rewrite Z.pow_add_r by lia.
    rewrite <- Z.mul_mod_idemp_l by lia.
    change (1000 ^ 11 mod 2 ^ 32) with 0. reflexivity.
Qed.

Lemma decade_factor_wraps_witness :
  let factor := FrequencyFactorTimes1000 (setFrequencyFactor 12 info_2000Hz) in
  factor = 1000 ^ 12 mod 2 ^ 32 /\
  (factor = 1000 ^ 12 <-> 12 <= 3) /\
  (factor = 0 <-> 11 <= 12).
Proof.
  apply (decade_factor_wraps 12 info_2000Hz). lia.
Defined.

Lemma translate_ignores_reload undef tim d s :
  Waveform s = WAVEFORM_SQUARE ->
  setWaveformFrequency undef tim (set_DividerInt d s) = setWaveformFrequency undef tim s.
Proof.
  intros Hw. unfold setWaveformFrequency.
  change (Waveform (set_DividerInt d s)) with (Waveform s).
  rewrite Hw. reflexivity.
Qed.

Lemma translate_square_state undef tim s :
  Waveform s = WAVEFORM_SQUARE ->
  exists d, fst (fst (setWaveformFrequency undef tim s)) = set_DividerInt d s.
Proof.
  intros Hw. unfold setWaveformFrequency. rewrite Hw.
  destruct tim; eexists; reflexivity.
Qed.

(** X2: translating again changes nothing: the state, the driver call
    and the flag of a second setWaveformFrequency are those of the
    first. *)
Theorem translate_idempotent undef tim s :
  let r := setWaveformFrequency undef tim s in
  setWaveformFrequency undef tim (fst (fst r)) = (fst (fst r), snd (fst r), snd r).
Proof.
  intros r.
  assert (Hr : r = (fst (fst r), snd (fst r), snd r)) by (destruct r as [[a b] c]; reflexivity).
  destruct (waveform_eqb (Waveform s) WAVEFORM_SQUARE) eqn:E.
  - assert (Hw : Waveform s = WAVEFORM_SQUARE)
      by (destruct (Waveform s); try discriminate E; reflexivity).
    destruct (translate_square_state undef tim s Hw) as [d Hd].
    fold r in Hd. rewrite Hd at 1.
    rewrite translate_ignores_reload by exact Hw. exact Hr.
  - rewrite <- Hr. unfold r, setWaveformFrequency. rewrite E.
    cbn [fst snd]. rewrite E. reflexivity.
Qed.

(** X3: on the 32 bit timer, for a square wave, the reload given to the
    driver is the one stored, and it is at least 2 and fits 32 bits,
    whatever the conversion of the tick count yields. *)
Theorem reload32_bounds undef s :
  Waveform s = WAVEFORM_SQUARE ->
  exists reload,
    fst (setWaveformFrequency undef Timer32 s) =
      (set_DividerInt reload s, [Synth_Timer32_SetReloadValue reload]) /\
    2 <= reload < 2 ^ 32.
Proof.
  intros Hw. exists (clipped_ticks undef s). split.
  - unfold setWaveformFrequency. rewrite Hw. reflexivity.
  - apply clipped_ticks_range.
Qed.

Lemma reload32_bounds_witness :
  exists reload,
    fst (setWaveformFrequency arm_saturate Timer32 info_1mHz) =
      (set_DividerInt reload info_1mHz, [Synth_Timer32_SetReloadValue reload]) /\
    2 <= reload < 2 ^ 32.
Proof.
  apply (reload32_bounds arm_saturate info_1mHz). reflexivity.
Defined.

(** X4: on the 16 bit timer the stored product reload * prescaler falls
    short of the tick count by less than the prescaler, and a tick count
    below 65536 is programmed as it is, with the prescaler 1. *)
Theorem reload16_loss undef s :
  Waveform s = WAVEFORM_SQUARE ->
  let ticks := clipped_ticks undef s in
  let prescaler := Z.shiftr ticks 16 + 1 in
  let r := setWaveformFrequency undef Timer16 s in
  ticks - prescaler < DividerInt (fst (fst r)) <= ticks /\
  (ticks < 65536 ->
   fst r = (set_DividerInt ticks s, [Synth_Timer16_SetReloadValue ticks 1])).
Proof.
  intros Hw ticks prescaler r.
  pose proof (clipped_ticks_range undef s) as Hr. fold ticks in Hr.
  assert (Hp : prescaler_of ticks = prescaler).
  { rewrite prescaler_of_div by lia. unfold prescaler.
    rewrite Z.shiftr_div_pow2 by lia. reflexivity. }
  pose proof (prescaler_of_range ticks ltac:(lia)) as Hpr.
  pose proof (reload_times_prescaler ticks Hr) as Hprod.
  assert (Hres : r = (set_DividerInt (uint32 (reload_of ticks * prescaler_of ticks)) s,
                      [Synth_Timer16_SetReloadValue (reload_of ticks) (prescaler_of ticks)],
                      float_to_unsigned undef 32 (tPeriod undef s) <? 2)).
  { unfold r, setWaveformFrequency. rewrite Hw. reflexivity. }
  assert (Hu : uint32 (reload_of ticks * prescaler_of ticks)
               = reload_of ticks * prescaler_of ticks)
    by (unfold uint32; apply Z.mod_small; lia).
  rewrite Hres. cbn [fst snd].
  change (DividerInt (set_DividerInt (uint32 (reload_of ticks * prescaler_of ticks)) s))
    with (uint32 (reload_of ticks * prescaler_of ticks)).
  rewrite Hu.
  split.
  - split; [|lia].
    unfold reload_of. rewrite Hp in *.
    destruct (1 <? prescaler) eqn:E.
    + apply Z.ltb_lt in E. rewrite Z.quot_div_nonneg by lia.
      pose proof (Z.div_mod ticks prescaler ltac:(lia)).
      pose proof (Z.mod_pos_bound ticks prescaler ltac:(lia)). nia.
    + apply Z.ltb_ge in E. nia.
  - intros Hsmall.
    assert (Hp1 : prescaler_of ticks = 1).
    { rewrite prescaler_of_div by lia. rewrite Z.div_small by lia. reflexivity. }
    assert (Hr1 : reload_of ticks = ticks) by (unfold reload_of; rewrite Hp1; reflexivity).
    rewrite Hr1, Hp1, Z.mul_1_r. reflexivity.
Qed.

Lemma reload16_loss_witness :
  let ticks := clipped_ticks arm_saturate info_1Hz in
  let prescaler := Z.shiftr ticks 16 + 1 in
  let r := setWaveformFrequency arm_saturate Timer16 info_1Hz in
  ticks - prescaler < DividerInt (fst (fst r)) <= ticks /\
  (ticks < 65536 ->
   fst r = (set_DividerInt ticks info_1Hz, [Synth_Timer16_SetReloadValue ticks 1])).
Proof.
  apply (reload16_loss arm_saturate info_1Hz). reflexivity.
Defined.

(** ** Further properties of setFrequency *)

(** X5: for a waveform other than square setFrequency stores the value
    as it is, leaves the decade alone, and no driver call is made,
    whatever the value and without running the loop. *)
Theorem setFrequency_non_square undef tim fuel aValue s :
  Waveform s <> WAVEFORM_SQUARE ->
  setFrequency undef tim fuel aValue s = Some (set_Frequency aValue s, []).
Proof.
  intros Hw. unfold setFrequency, setWaveformFrequency. simpl Waveform.
  destruct (Waveform s); try reflexivity. contradiction Hw; reflexivity.
Qed.

Lemma setFrequency_non_square_witness :
  setFrequency arm_saturate Timer32 0 (F32.of_Z 5000) info_sine
  = Some (set_Frequency (F32.of_Z 5000) info_sine, []).
Proof.
  apply (setFrequency_non_square arm_saturate Timer32 0 (F32.of_Z 5000) info_sine).
  discriminate.
Defined.

(** X6: for a square wave, a value that is neither greater than 1000
    nor less than 1 (NaN among them) is stored as it is in the decade Hz,
    index 1 and factor 1000, and translated. *)
Theorem setFrequency_kept undef tim fuel f s :
  (1 <= fuel)%nat ->
  Waveform s = WAVEFORM_SQUARE ->
  F32.ltb f1000 f = false ->
  F32.ltb f f1 = false ->
  exists s' cs,
    setFrequency undef tim fuel f s = Some (s', cs) /\
    (s', cs) = fst (setWaveformFrequency undef tim
                      (set_Frequency f (setFrequencyFactor 1 s))) /\
    Frequency s' = f /\
    FrequencyFactorIndex s' = 1 /\
    FrequencyFactorTimes1000 s' = 1000.
Proof.
  intros Hfuel Hw Hgt Hlt. destruct fuel as [|n]; [lia|].
  set (s1 := set_Frequency f (setFrequencyFactor 1 s)).
  assert (Hset : setFrequency undef tim (S n) f s
                 = Some (fst (setWaveformFrequency undef tim s1))).
  { unfold setFrequency. rewrite Hw. simpl waveform_eqb. cbv iota.
    rewrite normalize_loop_stop by exact Hgt. rewrite Hlt. reflexivity. }
  pose proof (setWaveformFrequency_fields undef tim s1) as Hf. cbv zeta in Hf.
  destruct (setWaveformFrequency undef tim s1) as [[s' cs] err].
  simpl in Hf. destruct Hf as [Hf1 [Hf2 [Hf3 _]]].
  exists s', cs. split; [exact Hset|]. split; [reflexivity|].
  rewrite Hf1, Hf2, Hf3. split; [|split]; reflexivity.
Qed.

Lemma setFrequency_kept_witness :
  exists s' cs,
    setFrequency arm_saturate Timer32 1 f1000 info_2kHz = Some (s', cs) /\
    (s', cs) = fst (setWaveformFrequency arm_saturate Timer32
                      (set_Frequency f1000 (setFrequencyFactor 1 info_2kHz))) /\
    Frequency s' = f1000 /\
    FrequencyFactorIndex s' = 1 /\
    FrequencyFactorTimes1000 s' = 1000.
Proof.
  apply (setFrequency_kept arm_saturate Timer32 1 f1000 info_2kHz).
  - apply le_n.
  - reflexivity.
  - reflexivity.
  - reflexivity.
Defined.

(** X7: setFrequency with the same value a second time yields the same
    state and the same driver call again. *)
Theorem setFrequency_idempotent undef tim fuel f s s1 cs :
  setFrequency undef tim fuel f s = Some (s1, cs) ->
  setFrequency undef tim fuel f s1 = Some (s1, cs).
Proof.
  unfold setFrequency.
  destruct (waveform_eqb (Waveform s) WAVEFORM_SQUARE) eqn:Hw.
  - destruct (normalize_loop fuel f 1) as [[v i]|]; [|discriminate].
    set (vi := if F32.ltb v f1 then (F32.mul v f1000, 0) else (v, i)).
    destruct vi as [v' i'].
    set (s2 := set_Frequency v' (setFrequencyFactor i' s)).
    assert (Hw2 : Waveform s2 = WAVEFORM_SQUARE).
    { simpl. destruct (Waveform s); try discriminate Hw. reflexivity. }
    destruct (translate_square_state undef tim s2 Hw2) as [d Hd].
    destruct (setWaveformFrequency undef tim s2) as [[a b] c] eqn:E.
    simpl in Hd. subst a. simpl fst.
    intros H. inversion H. subst s1 cs. clear H.
    simpl Waveform. simpl in Hw2. rewrite Hw2. simpl waveform_eqb. cbv iota.
    change (set_Frequency v' (setFrequencyFactor i' (set_DividerInt d s2)))
      with (set_DividerInt d s2).
    rewrite translate_ignores_reload by exact Hw2. rewrite E. reflexivity.
  - assert (Hw1 : waveform_eqb (Waveform (set_Frequency f s)) WAVEFORM_SQUARE = false)
      by exact Hw.
    unfold setWaveformFrequency. rewrite Hw1. cbn [fst snd].
    intros H. inversion H. subst s1 cs. clear H.
    change (Waveform (set_Frequency f s)) with (Waveform s). rewrite Hw.
    change (Waveform (set_Frequency f (set_Frequency f s))) with (Waveform s).
    rewrite Hw. reflexivity.
Qed.

Lemma setFrequency_idempotent_witness :
  setFrequency arm_saturate Timer32 19 (F32.of_Z 5000)
    (set_DividerInt 7200 (set_Frequency (F32.of_Z 5) (setFrequencyFactor 2 info_2000Hz)))
  = Some (set_DividerInt 7200 (set_Frequency (F32.of_Z 5) (setFrequencyFactor 2 info_2000Hz)),
          [Synth_Timer32_SetReloadValue 7200]).
Proof.
  apply (setFrequency_idempotent arm_saturate Timer32 19 (F32.of_Z 5000) info_2000Hz).
  vm_compute. reflexivity.
Defined.

(** ** The range buttons, start and stop, the fixed frequencies *)

Lemma translate_and_print_fields undef tim log10f p :
  let r := setWaveformFrequency undef tim (sFrequencyInfo p) in
  let p' := fst (SetWaveformFrequencyAndPrintValues undef tim log10f p) in
  sFrequencyInfo p' = fst (fst r) /\
  calls p' = calls p ++ snd (fst r) /\
  is10HzRange p' = is10HzRange p /\
  ActiveRange p' = ActiveRange p.
Proof.
  unfold SetWaveformFrequencyAndPrintValues.
  destruct (setWaveformFrequency undef tim (sFrequencyInfo p)) as [[s cs] e].
  repeat split; reflexivity.
Qed.

(** X8: touching the active range button does nothing at all; another
    of the five buttons mHz, Hz, 10Hz, kHz, MHz selects the decade index
    0, 1, 1, 2, 3 with its factor, sets the 10 Hz range for the button 2
    only and translates, the numeric value of the frequency staying as it
    is. *)
Theorem change_range undef tim log10f aValue p :
  (ActiveRange p = aValue ->
   doChangeFrequencyRange undef tim log10f aValue p = p) /\
  (ActiveRange p <> aValue -> 0 <= aValue <= 4 ->
   let idx := nth (Z.to_nat aValue) [0; 1; 1; 2; 3] 0 in
   let p' := doChangeFrequencyRange undef tim log10f aValue p in
   sFrequencyInfo p' =
     fst (fst (setWaveformFrequency undef tim (setFrequencyFactor idx (sFrequencyInfo p)))) /\
   Frequency (sFrequencyInfo p') = Frequency (sFrequencyInfo p) /\
   FrequencyFactorIndex (sFrequencyInfo p') = idx /\
   FrequencyFactorTimes1000 (sFrequencyInfo p') = 1000 ^ idx /\
   is10HzRange p' = (aValue =? 2) /\
   ActiveRange p' = aValue).
Proof.
  split.
  - intros H. unfold doChangeFrequencyRange. rewrite H, Z.eqb_refl. reflexivity.
  - intros Hne Hr idx p'.
    assert (Hidx : (if INDEX_OF_10HZ <=? aValue then aValue - 1 else aValue) = idx).
    { unfold idx, INDEX_OF_10HZ.
      assert (C : aValue = 0 \/ aValue = 1 \/ aValue = 2 \/ aValue = 3 \/ aValue = 4) by lia.
      destruct C as [->|[->|[->|[->| ->]]]]; reflexivity. }
    assert (Hi : 0 <= idx <= 3).
    { unfold idx.
      assert (C : aValue = 0 \/ aValue = 1 \/ aValue = 2 \/ aValue = 3 \/ aValue = 4) by lia.
      destruct C as [->|[->|[->|[->| ->]]]]; simpl; lia. }
    unfold p', doChangeFrequencyRange.
    replace (ActiveRange p =? aValue) with false by (symmetry; apply Z.eqb_neq; exact Hne).
    cbv zeta. rewrite Hidx.
    unfold SetWaveformFrequencyAndPrintValues. cbn [sFrequencyInfo].
    pose proof (setWaveformFrequency_fields undef tim
                  (setFrequencyFactor idx (sFrequencyInfo p))) as Hf.
    cbv zeta in Hf.
    destruct (setWaveformFrequency undef tim (setFrequencyFactor idx (sFrequencyInfo p)))
      as [[s' cs] err].
    cbn [fst snd] in Hf. destruct Hf as [Hf1 [Hf2 [Hf3 _]]].
    rewrite (setFrequencyFactor_decade idx (sFrequencyInfo p) Hi) in Hf1, Hf2, Hf3.
    cbn [Frequency FrequencyFactorIndex FrequencyFactorTimes1000] in Hf1, Hf2, Hf3.
    unfold print, emit, with_info.
    cbn [fst snd sFrequencyInfo is10HzRange ActiveRange calls shown].
    repeat split; assumption || reflexivity.
Qed.

Lemma change_range_witness :
  let idx := nth (Z.to_nat 4) [0; 1; 1; 2; 3] 0 in
  let p' := doChangeFrequencyRange arm_saturate Timer32 log10f_at_5 4 page_200Hz in
  sFrequencyInfo p' =
    fst (fst (setWaveformFrequency arm_saturate Timer32
                (setFrequencyFactor idx (sFrequencyInfo page_200Hz)))) /\
  Frequency (sFrequencyInfo p') = Frequency (sFrequencyInfo page_200Hz) /\
  FrequencyFactorIndex (sFrequencyInfo p') = idx /\
  FrequencyFactorTimes1000 (sFrequencyInfo p') = 1000 ^ idx /\
  is10HzRange p' = (4 =? 2) /\
  ActiveRange p' = 4.
Proof.
  apply (proj2 (change_range arm_saturate Timer32 log10f_at_5 4 page_200Hz)).
  - discriminate.
  - lia.
Defined.

Lemma translate_output_enabled undef tim b s :
  let r := setWaveformFrequency undef tim s in
  setWaveformFrequency undef tim (set_isOutputEnabled b s)
  = (set_isOutputEnabled b (fst (fst r)), snd (fst r), snd r).
Proof.
  unfold setWaveformFrequency.
  change (Waveform (set_isOutputEnabled b s)) with (Waveform s).
  destruct (waveform_eqb (Waveform s) WAVEFORM_SQUARE); [destruct tim|]; reflexivity.
Qed.

(** X9: stopping leaves the frequency, the decade and the reload as
    they are and only stops the timer; starting a stopped page whose
    reload is the translation of its frequency starts the timer and
    programs that reload again: stop and start keep the reload. *)
Theorem stop_start undef tim log10f p :
  fst (fst (setWaveformFrequency undef tim (sFrequencyInfo p))) = sFrequencyInfo p ->
  let p1 := doFrequencyGeneratorStartStop undef tim log10f false p in
  let p2 := doFrequencyGeneratorStartStop undef tim log10f true p1 in
  sFrequencyInfo p1 = set_isOutputEnabled false (sFrequencyInfo p) /\
  calls p1 = calls p ++ [Synth_Timer_Stop] /\
  shown p1 = shown p /\
  sFrequencyInfo p2 = set_isOutputEnabled true (sFrequencyInfo p) /\
  calls p2 = (calls p ++ [Synth_Timer_Stop]) ++ [Synth_Timer_Start]
             ++ snd (fst (setWaveformFrequency undef tim (sFrequencyInfo p))).
Proof.
  intros Ht p1 p2.
  assert (Hs : sFrequencyInfo p1 = set_isOutputEnabled false (sFrequencyInfo p))
    by reflexivity.
  assert (Hc : calls p1 = calls p ++ [Synth_Timer_Stop]) by reflexivity.
  assert (Hsh : shown p1 = shown p) by reflexivity.
  split; [exact Hs|]. split; [exact Hc|]. split; [exact Hsh|].
  clearbody p1.
  unfold p2, doFrequencyGeneratorStartStop, SetWaveformFrequencyAndPrintValues.
  cbv zeta. unfold print, emit, with_info.
  cbn [sFrequencyInfo is10HzRange ActiveRange calls shown].
  rewrite Hs, Hc.
  change (set_isOutputEnabled true (set_isOutputEnabled false (sFrequencyInfo p)))
    with (set_isOutputEnabled true (sFrequencyInfo p)).
  rewrite translate_output_enabled. cbv zeta.
  cbn [fst snd sFrequencyInfo calls]. rewrite Ht.
  split; [reflexivity | rewrite <- app_assoc; reflexivity].
Qed.

Lemma stop_start_witness :
  let p1 := doFrequencyGeneratorStartStop arm_saturate Timer32 log10f_at_5 false page_200Hz in
  let p2 := doFrequencyGeneratorStartStop arm_saturate Timer32 log10f_at_5 true p1 in
  sFrequencyInfo p1 = set_isOutputEnabled false (sFrequencyInfo page_200Hz) /\
  calls p1 = calls page_200Hz ++ [Synth_Timer_Stop] /\
  shown p1 = shown page_200Hz /\
  sFrequencyInfo p2 = set_isOutputEnabled true (sFrequencyInfo page_200Hz) /\
  calls p2 = (calls page_200Hz ++ [Synth_Timer_Stop]) ++ [Synth_Timer_Start]
             ++ snd (fst (setWaveformFrequency arm_saturate Timer32
                            (sFrequencyInfo page_200Hz))).
Proof.
  apply (stop_start arm_saturate Timer32 log10f_at_5 page_200Hz).
  vm_compute. reflexivity.
Defined.

(** X10: in the decade Hz on the 32 bit timer every fixed frequency
    button, taken times 10 in the 10 Hz range, is stored exactly and
    translated without clipping to a reload that divides the 36 MHz
    exactly, reload * frequency = 36 000 000, and the frequency the page
    computes back and shows is the button's frequency itself. *)
Theorem fixed_frequency_exact undef log10f aValue p :
  In aValue FixedFrequencyButtonCaptions ->
  Waveform (sFrequencyInfo p) = WAVEFORM_SQUARE ->
  FrequencyFactorTimes1000 (sFrequencyInfo p) = 1000 ->
  let target := if is10HzRange p then aValue * 10 else aValue in
  let r := doSetFixedFrequency undef Timer32 log10f aValue p in
  snd r = false /\
  Frequency (sFrequencyInfo (fst r)) = F32.of_Z target /\
  (F2Q (Frequency (sFrequencyInfo (fst r))) == inject_Z target)%Q /\
  DividerInt (sFrequencyInfo (fst r)) * target = 36000000 /\
  calls (fst r) = calls p ++ [Synth_Timer32_SetReloadValue (36000000 / target)] /\
  option_map shownFrequency (shown (fst r)) = Some (F32.of_Z target).
Proof.
  intros Hin Hw Hfac.
  destruct p as [[d pm f fac idx w en] is10 act cs sh].
  simpl in Hw, Hfac. subst w fac.
  unfold FixedFrequencyButtonCaptions in Hin. simpl in Hin.
  destruct is10;
    destruct Hin as [<-|[<-|[<-|[<-|[<-|[<-|[<-|[<-|[<-|[<-|[]]]]]]]]]]];
    vm_compute; repeat split.
Qed.

Lemma fixed_frequency_exact_witness :
  let target := if is10HzRange page_200Hz then 50 * 10 else 50 in
  let r := doSetFixedFrequency arm_saturate Timer32 log10f_at_5 50 page_200Hz in
  snd r = false /\
  Frequency (sFrequencyInfo (fst r)) = F32.of_Z target /\
  (F2Q (Frequency (sFrequencyInfo (fst r))) == inject_Z target)%Q /\
  DividerInt (sFrequencyInfo (fst r)) * target = 36000000 /\
  calls (fst r) = calls page_200Hz ++ [Synth_Timer32_SetReloadValue (36000000 / target)] /\
  option_map shownFrequency (shown (fst r)) = Some (F32.of_Z target).
Proof.
  apply (fixed_frequency_exact arm_saturate log10f_at_5 50 page_200Hz).
  - simpl. tauto.
  - reflexivity.
  - reflexivity.
Defined.

(** ** What the page shows *)

(** X11: the period the page shows for a reload n of 1 .. 2^32 - 1 is a
    finite float within 2^-21 (relative) of n / 36 microseconds, or of
    n / 36000 milliseconds when the unit shown is milli. *)
Theorem shown_period_accurate undef log10f s is10 :
  1 <= DividerInt s < 2 ^ 32 ->
  let r := printFrequencyAndPeriod undef log10f s is10 in
  let scale := if shownMilli r then 36000%Q else 36%Q in
  exists p e,
    shownPeriod r = S754_finite false p e /\
    (Qabs (F2Q (S754_finite false p e) * scale - inject_Z (DividerInt s))
     <= inject_Z (DividerInt s) * (1 # 2097152))%Q.
Proof.
  intros Hn r scale. subst scale. subst r. unfold printFrequencyAndPeriod.
  cbv zeta. cbn [shownPeriod shownMilli].
  set (n := DividerInt s) in *.
  assert (HN1 : (1 <= inject_Z n)%Q)
    by (change 1%Q with (inject_Z 1); rewrite <- Zle_Qle; lia).
  assert (HN32 : (inject_Z n <= 4294967296)%Q)
    by (change 4294967296%Q with (inject_Z 4294967296); rewrite <- Zle_Qle;
        change (2 ^ 32) with 4294967296 in Hn; lia).
  assert (Hsmall : (pow2 (-125) == 1 # 42535295865117307932921825928971026432)%Q)
    by reflexivity.
  assert (Hlarge : (pow2 126 == 85070591730234615865843651857942052864)%Q)
    by reflexivity.
  destruct (Binary32Q.of_Z_rel n) as [pp [ep [HP [HPa HPb]]]].
  { change (2 ^ 64) with 18446744073709551616.
    change (2 ^ 32) with 4294967296 in Hn. lia. }
  rewrite HP. unfold ulp_rel in HPa, HPb.
  pose proof (Binary32Q.F2Q_pos pp ep) as HPpos.
  change (F32.of_Z 36) with (S754_finite false 9437184 (-18)).
  assert (E36 : (F2Q (S754_finite false 9437184 (-18)) == 36)%Q) by reflexivity.
  destruct (Binary32Q.div_rel pp ep 9437184 (-18)) as [pm [em [HM [HMa HMb]]]].
  { rewrite Hsmall, E36. lra. }
  { rewrite Hlarge, E36. lra. }
  rewrite HM. rewrite E36 in HMa, HMb. unfold ulp_rel in HMa, HMb.
  pose proof (Binary32Q.F2Q_pos pm em) as HMpos.
  destruct (F32.ltb (F32.of_Z 10000) (S754_finite false pm em)).
  - change f1000 with (S754_finite false 16384000 (-14)).
    assert (E1000 : (F2Q (S754_finite false 16384000 (-14)) == 1000)%Q) by reflexivity.
    destruct (Binary32Q.div_rel pm em 16384000 (-14)) as [ps [es [HS [HSa HSb]]]].
    { rewrite Hsmall, E1000. lra. }
    { rewrite Hlarge, E1000. lra. }
    rewrite E1000 in HSa, HSb. unfold ulp_rel in HSa, HSb.
    exists ps, es. split; [exact HS|].
    apply Qabs_Qle_condition. split; lra.
  - exists pm, em. split; [reflexivity|].
    apply Qabs_Qle_condition. split; lra.
Qed.

Lemma shown_period_accurate_witness :
  let r := printFrequencyAndPeriod arm_saturate log10f_at_5 (sFrequencyInfo page_200Hz) true in
  let scale := if shownMilli r then 36000%Q else 36%Q in
  exists p e,
    shownPeriod r = S754_finite false p e /\
    (Qabs (F2Q (S754_finite false p e) * scale - inject_Z (DividerInt (sFrequencyInfo page_200Hz)))
     <= inject_Z (DividerInt (sFrequencyInfo page_200Hz)) * (1 # 2097152))%Q.
Proof.
  apply (shown_period_accurate arm_saturate log10f_at_5 (sFrequencyInfo page_200Hz) true).
  split; [discriminate | reflexivity].
Defined.

(** ** The slider *)

Lemma slider_exponent_checked :
  forallb (fun n => slider_exponent_near false (Z.of_nat n)
                    && slider_exponent_near true (Z.of_nat n)) (seq 0 301) = true.
Proof. vm_compute. reflexivity. Qed.

Lemma slider_exponent_near_spec is10 aValue :
  0 <= aValue <= 300 ->
  let t := slider_exponent is10 aValue in
  let exact := (inject_Z aValue / 100 + (if is10 then 1 else 0))%Q in
  F32.is_finite t = true /\
  (exact - (1 # 4194304) <= F2Q t)%Q /\ (F2Q t <= exact + (1 # 4194304))%Q.
Proof.
  intros Hr t exact.
  pose proof slider_exponent_checked as H.
  rewrite forallb_forall in H.
  specialize (H (Z.to_nat aValue)).
  rewrite Z2Nat.id in H by lia.
  assert (Hin : In (Z.to_nat aValue) (seq 0 301)) by (apply in_seq; lia).
  specialize (H Hin). apply andb_true_iff in H. destruct H as [Hf Ht].
  assert (Hc : slider_exponent_near is10 aValue = true) by (destruct is10; assumption).
  unfold slider_exponent_near in Hc. fold t in Hc. fold exact in Hc.
  apply andb_true_iff in Hc. destruct Hc as [Hc H3].
  apply andb_true_iff in Hc. destruct Hc as [H1 H2].
  apply Qle_bool_iff in H2. apply Qle_bool_iff in H3. auto.
Qed.

(** X12: for every slider value 0..300 doFrequencySlider stores
    pow(10, t) for a finite exponent t within 2^-22 of value / 100, plus
    1 in the 10 Hz range, and leaves the decade as it is. *)
Theorem slider_decodes undef tim pow log10f aValue p :
  0 <= aValue <= 300 ->
  let t := slider_exponent (is10HzRange p) aValue in
  let p' := doFrequencySlider undef tim pow log10f aValue p in
  Frequency (sFrequencyInfo p') = pow (F32.of_Z 10) t /\
  FrequencyFactorIndex (sFrequencyInfo p') = FrequencyFactorIndex (sFrequencyInfo p) /\
  FrequencyFactorTimes1000 (sFrequencyInfo p') = FrequencyFactorTimes1000 (sFrequencyInfo p) /\
  F32.is_finite t = true /\
  (Qabs (F2Q t - (inject_Z aValue / 100 + (if is10HzRange p then 1 else 0)))
   <= 1 # 4194304)%Q.
Proof.
  intros Hr t p'.
  destruct (slider_exponent_near_spec (is10HzRange p) aValue Hr) as [Hfin [Hlo Hhi]].
  fold t in Hfin, Hlo, Hhi.
  set (s1 := set_Frequency (pow (F32.of_Z 10) t) (sFrequencyInfo p)).
  assert (Hp : p' = fst (SetWaveformFrequencyAndPrintValues undef tim log10f (with_info s1 p)))
    by reflexivity.
  destruct (translate_and_print_fields undef tim log10f (with_info s1 p)) as [Hs _].
  rewrite <- Hp in Hs. rewrite Hs. cbn [sFrequencyInfo with_info].
  destruct (setWaveformFrequency_fields undef tim s1) as [Hf1 [Hf2 [Hf3 _]]].
  split; [exact Hf1|]. split; [exact Hf2|]. split; [exact Hf3|]. split; [exact Hfin|].
  apply Qabs_Qle_condition. split; lra.
Qed.

Lemma slider_decodes_witness :
  let t := slider_exponent (is10HzRange page_200Hz) 150 in
  let p' := doFrequencySlider arm_saturate Timer32 (fun x _ => x) log10f_at_5 150 page_200Hz in
  Frequency (sFrequencyInfo p') = (fun x _ => x) (F32.of_Z 10) t /\
  FrequencyFactorIndex (sFrequencyInfo p')
    = FrequencyFactorIndex (sFrequencyInfo page_200Hz) /\
  FrequencyFactorTimes1000 (sFrequencyInfo p')
    = FrequencyFactorTimes1000 (sFrequencyInfo page_200Hz) /\
  F32.is_finite t = true /\
  (Qabs (F2Q t - (inject_Z 150 / 100 + (if is10HzRange page_200Hz then 1 else 0)))
   <= 1 # 4194304)%Q.
Proof.
  apply (slider_decodes arm_saturate Timer32 (fun x _ => x) log10f_at_5 150 page_200Hz).
  split; discriminate.
Defined.

(** X13: the exponent is strictly increasing in the slider value: two
    slider positions never decode to the same exponent. *)
Theorem slider_exponent_increasing is10 a b :
  0 <= a -> a < b -> b <= 300 ->
  (F2Q (slider_exponent is10 a) < F2Q (slider_exponent is10 b))%Q.
Proof.
  intros Ha Hab Hb.
  destruct (slider_exponent_near_spec is10 a ltac:(lia)) as [_ [_ Hahi]].
  destruct (slider_exponent_near_spec is10 b ltac:(lia)) as [_ [Hblo _]].
  assert (H : (inject_Z a + 1 <= inject_Z b)%Q).
  { change 1%Q with (inject_Z 1). rewrite <- inject_Z_plus, <- Zle_Qle. lia. }
  assert (Ea : (inject_Z a / 100 == inject_Z a * (1 # 100))%Q) by reflexivity.
  assert (Eb : (inject_Z b / 100 == inject_Z b * (1 # 100))%Q) by reflexivity.
  rewrite Ea in Hahi. rewrite Eb in Hblo.
  set (c := (if is10 then 1 else 0)%Q) in *.
  lra.
Qed.

Lemma slider_exponent_increasing_witness :
  (F2Q (slider_exponent true 299) < F2Q (slider_exponent true 300))%Q.
Proof.
  apply (slider_exponent_increasing true 299 300); lia.
Defined.

(** ** What holds after every handler *)

Lemma translate_ok undef tim s :
  Waveform s = WAVEFORM_SQUARE ->
  let r := setWaveformFrequency undef tim s in
  Waveform (fst (fst r)) = WAVEFORM_SQUARE /\
  2 <= DividerInt (fst (fst r)) < 2 ^ 32 /\
  Forall call_ok (snd (fst r)).
Proof.
  intros Hw r.
  pose proof (clipped_ticks_range undef s) as Hr.
  assert (Hres : r = match tim with
                     | Timer32 =>
                         (set_DividerInt (clipped_ticks undef s) s,
                          [Synth_Timer32_SetReloadValue (clipped_ticks undef s)],
                          float_to_unsigned undef 32 (tPeriod undef s) <? 2)
                     | Timer16 =>
                         (set_DividerInt
                            (uint32 (reload_of (clipped_ticks undef s)
                                     * prescaler_of (clipped_ticks undef s))) s,
                          [Synth_Timer16_SetReloadValue (reload_of (clipped_ticks undef s))
                             (prescaler_of (clipped_ticks undef s))],
                          float_to_unsigned undef 32 (tPeriod undef s) <? 2)
                     end).
  { unfold r, setWaveformFrequency. rewrite Hw. destruct tim; reflexivity. }
  rewrite Hres. destruct tim; cbn [fst snd].
  - split; [exact Hw|]. split; [exact Hr|]. constructor; [exact Hr | constructor].
  - pose proof (reload_of_range _ Hr) as H1.
    pose proof (prescaler_of_range (clipped_ticks undef s) ltac:(lia)) as H2.
    pose proof (reload_times_prescaler _ Hr) as H3.
    split; [exact Hw|]. split.
    + cbn [DividerInt set_DividerInt].
      unfold uint32. rewrite Z.mod_small by lia. nia.
    + constructor; [|constructor]. unfold call_ok. lia.
Qed.

Lemma translate_and_print_ok undef tim log10f p :
  Waveform (sFrequencyInfo p) = WAVEFORM_SQUARE ->
  Forall call_ok (calls p) ->
  page_ok (fst (SetWaveformFrequencyAndPrintValues undef tim log10f p)).
Proof.
  intros Hw Hc.
  destruct (translate_ok undef tim (sFrequencyInfo p) Hw) as [H1 [H2 H3]].
  destruct (translate_and_print_fields undef tim log10f p) as [Hs [Hcs _]].
  split.
  - rewrite Hs. exact H1.
  - rewrite Hs. exact H2.
  - rewrite Hcs. apply Forall_app. split; assumption.
Qed.

Lemma setFrequency_ok undef tim fuel f s s' cs :
  Waveform s = WAVEFORM_SQUARE ->
  setFrequency undef tim fuel f s = Some (s', cs) ->
  Waveform s' = WAVEFORM_SQUARE /\ 2 <= DividerInt s' < 2 ^ 32 /\ Forall call_ok cs.
Proof.
  intros Hw. unfold setFrequency. rewrite Hw. simpl waveform_eqb. cbv iota.
  destruct (normalize_loop fuel f 1) as [[v i]|]; [|discriminate].
  set (vi := if F32.ltb v f1 then (F32.mul v f1000, 0) else (v, i)).
  destruct vi as [v' i'].
  set (s2 := set_Frequency v' (setFrequencyFactor i' s)).
  pose proof (translate_ok undef tim s2 Hw) as H. cbv zeta in H.
  destruct (setWaveformFrequency undef tim s2) as [[a b] c].
  cbn [fst snd] in H |- *. intros E. inversion E. subst a b. exact H.
Qed.

Lemma handle_ok undef tim pow log10f fuel e p p' :
  page_ok p ->
  handle undef tim pow log10f fuel e p = Some p' ->
  page_ok p'.
Proof.
  intros [Hw Hr Hc] H. destruct e as [a|a|a|f|f|b]; cbn [handle] in H.
  - inversion H. subst p'. unfold doFrequencySlider.
    apply translate_and_print_ok; [exact Hw | exact Hc].
  - inversion H. subst p'. unfold doSetFixedFrequency.
    apply translate_and_print_ok; [exact Hw | exact Hc].
  - inversion H. subst p'. unfold doChangeFrequencyRange.
    destruct (ActiveRange p =? a); [split; assumption|].
    apply translate_and_print_ok; [exact Hw | exact Hc].
  - unfold doSetFrequency in H.
    destruct (setFrequency undef tim fuel f (sFrequencyInfo p)) as [[s cs]|] eqn:E;
      [|discriminate].
    inversion H. subst p'.
    destruct (setFrequency_ok _ _ _ _ _ _ _ Hw E) as [H1 [H2 H3]].
    split; [exact H1 | exact H2 |].
    apply (Forall_app call_ok (calls p) cs). split; assumption.
  - inversion H. subst p'. unfold doGetFrequency.
    apply translate_and_print_ok; [|exact Hc].
    destruct (negb (F32.is_nan f)); exact Hw.
  - inversion H. subst p'. unfold doFrequencyGeneratorStartStop.
    destruct b.
    + apply translate_and_print_ok; [exact Hw|].
      apply (Forall_app call_ok (calls p) [Synth_Timer_Start]).
      split; [assumption|]. constructor; [exact I | constructor].
    + split; [exact Hw | exact Hr |].
      apply (Forall_app call_ok (calls p) [Synth_Timer_Stop]).
      split; [assumption|]. constructor; [exact I | constructor].
Qed.

Lemma run_ok undef tim pow log10f fuel es : forall p p',
  page_ok p ->
  run undef tim pow log10f fuel es p = Some p' ->
  page_ok p'.
Proof.
  induction es as [|e es IH]; intros p p' Hp H; cbn [run] in H.
  - inversion H. subst p'. exact Hp.
  - destruct (handle undef tim pow log10f fuel e p) as [p1|] eqn:E; [|discriminate].
    apply (IH p1 p'); [|exact H].
    apply (handle_ok _ _ _ _ _ _ _ _ Hp E).
Qed.

(** X14: after initFrequencyGeneratorPage and any sequence of the
    handlers of the page, the waveform is square, the stored reload is at
    least 2 and fits 32 bits, and every reload the driver was given was
    at least 2, on the 16 bit timer below 65536 with a prescaler of
    1 .. 65536. *)
Theorem handlers_keep_reload undef tim pow log10f fuel es p0 p :
  initFrequencyGeneratorPage undef tim fuel boot = Some p0 ->
  run undef tim pow log10f fuel es p0 = Some p ->
  page_ok p.
Proof.
  intros Hi Hrun. apply (run_ok undef tim pow log10f fuel es p0 p); [|exact Hrun].
  unfold initFrequencyGeneratorPage in Hi.
  destruct (setFrequency undef tim fuel (F32.of_Z 200) _) as [[s cs]|] eqn:E;
    [|discriminate].
  inversion Hi. subst p0.
  apply setFrequency_ok in E; [|reflexivity].
  destruct E as [H1 [H2 H3]].
  split; [exact H1 | exact H2 | exact H3].
Qed.

Lemma handlers_keep_reload_witness :
  page_ok
    (fst (doSetFixedFrequency arm_saturate Timer16 log10f_at_5 1000
            (doChangeFrequencyRange arm_saturate Timer16 log10f_at_5 4
               (mkPage (mkFrequencyInfo 180000 0 (F32.of_Z 200) 1000 1 WAVEFORM_SQUARE true)
                  true BUTTON_INDEX_SELECTED_INITIAL
                  [Synth_Timer16_SetReloadValue 60000 3] None)))).
Proof.
  apply (handlers_keep_reload arm_saturate Timer16 (fun x _ => x) log10f_at_5 19
           [ChangeFrequencyRange 4; SetFixedFrequency 1000]
           (mkPage (mkFrequencyInfo 180000 0 (F32.of_Z 200) 1000 1 WAVEFORM_SQUARE true)
              true BUTTON_INDEX_SELECTED_INITIAL
              [Synth_Timer16_SetReloadValue 60000 3] None)).
  - vm_compute. reflexivity.
  - vm_compute. reflexivity.
Defined.

(** ** The realized frequency on the 16 bit timer *)

Lemma reload_prescaler_loss t :
  2 <= t < 2 ^ 32 -> t - prescaler_of t < reload_of t * prescaler_of t.
Proof.
  intros H. pose proof (prescaler_of_range t ltac:(lia)) as Hp.
  unfold reload_of.
  destruct (1 <? prescaler_of t) eqn:E.
  - apply Z.ltb_lt in E. rewrite Z.quot_div_nonneg by lia.
    pose proof (Z.div_mod t (prescaler_of t) ltac:(lia)).
    pose proof (Z.mod_pos_bound t (prescaler_of t) ltac:(lia)). nia.
  - apply Z.ltb_ge in E. nia.
Qed.

(** The arithmetic of the bound when the stored divider [D] falls short
    of the tick count [A] by at most [G], with [2 * G <= D]. *)
Lemma quantization_arith_gap (K T A D G P F : Q) :
  (0 < T)%Q -> (0 < P)%Q -> (0 <= F)%Q -> (2 <= D)%Q ->
  (0 <= G)%Q -> (2 * G <= D)%Q ->
  (A * (1 - ulp_rel) * T <= K)%Q -> (K <= A * (1 + ulp_rel) * T)%Q ->
  (D <= A)%Q -> (A <= D + G)%Q ->
  (P * (1 - ulp_rel) <= D)%Q -> (D <= P * (1 + ulp_rel))%Q ->
  (F * (1 - ulp_rel) * P <= K)%Q -> (K <= F * (1 + ulp_rel) * P)%Q ->
  (Qabs (F - T) / T <= G / D + (1 # 1048576))%Q.
Proof.
  unfold ulp_rel. intros HT HP HF HD HG HGD H1a H1b H2a H2b H3a H3b H4a H4b.
  apply Qle_shift_div_r; [exact HT|].
  apply Qabs_Qle_condition.
  assert (HiD : (0 < / D)%Q) by (apply Qinv_lt_0_compat; lra).
  assert (E1 : (D * / D == 1)%Q) by (apply Qmult_inv_r; lra).
  set (iD := (/ D)%Q) in *.
  assert (EiD : (G / D == G * iD)%Q) by (unfold iD; field; lra).
  rewrite EiD.
  assert (HGT : (0 <= G * T)%Q) by (apply Qmult_le_0_compat; lra).
  assert (HiDGT : (0 <= iD * (G * T))%Q) by (apply Qmult_le_0_compat; lra).
  split.
  - (* F is not much below T *)
    assert (P1 : (0 <= (A - D) * T)%Q) by (apply Qmult_le_0_compat; lra).
    assert (P2 : (0 <= (D - P * (1 - (1 # 8388608))) * T)%Q)
      by (apply Qmult_le_0_compat; lra).
    assert (HPc : (P * ((1 - (1 # 8388608)) * (1 - (1 # 8388608)) * T)
                   <= P * (F * (1 + (1 # 8388608))))%Q) by lra.
    apply Qmult_le_l in HPc; [|exact HP]. lra.
  - (* F is not much above T *)
    assert (P1 : (0 <= (F * (1 - (1 # 8388608))) * (P * (1 + (1 # 8388608)) - D))%Q)
      by (apply Qmult_le_0_compat; [apply Qmult_le_0_compat|]; lra).
    assert (P2 : (0 <= (D + G - A) * T)%Q) by (apply Qmult_le_0_compat; lra).
    assert (P3 : (0 <= (D - 2 * G) * T)%Q) by (apply Qmult_le_0_compat; lra).
    assert (HN1 : (F * D - D * T <= G * T + (1 # 1048576) * (D * T))%Q) by lra.
    assert (E2 : (D * iD * T == T)%Q) by (rewrite E1; ring).
    assert (E3 : (D * iD * F == F)%Q) by (rewrite E1; ring).
    assert (E4 : (D * iD * (G * T) == G * T)%Q) by (rewrite E1; ring).
    assert (HNc : (D * (F - T) <= D * ((G * iD + (1 # 1048576)) * T))%Q) by lra.
    apply Qmult_le_l in HNc; [exact HNc | lra].
Qed.

(** X15: on the 16 bit timer, for a square wave in one of the four
    decades and a positive finite target whose truncated tick count n is
    at least 2 and fits 32 bits, the translation does not clip, the
    driver gets the reload r = n / prescaler, the stored divider is
    r * prescaler, and the frequency the page computes back from it is a
    finite float with |realized - target| / target <= 1 / r + 2^-20, both
    frequencies in the unit of the decade. *)
Theorem quantization_bound_16bit undef log10f s n is10 :
  Waveform s = WAVEFORM_SQUARE ->
  In (FrequencyFactorTimes1000 s) decade_factors ->
  F32.is_pos_finite (Frequency s) = true ->
  F32.trunc (tPeriod undef s) = Some n ->
  2 <= n < 2 ^ 32 ->
  let r := setWaveformFrequency undef Timer16 s in
  let s' := fst (fst r) in
  snd r = false /\
  snd (fst r) = [Synth_Timer16_SetReloadValue (reload_of n) (prescaler_of n)] /\
  DividerInt s' = reload_of n * prescaler_of n /\
  exists p e,
    shownFrequency (printFrequencyAndPeriod undef log10f s' is10) = S754_finite false p e /\
    (Qabs (F2Q (S754_finite false p e) - F2Q (Frequency s)) / F2Q (Frequency s)
     <= 1 / inject_Z (reload_of n) + (1 # 1048576))%Q.
Proof.
  intros Hw Hfac Hpos Ht Hn r s'.
  assert (Hcast : float_to_unsigned undef 32 (tPeriod undef s) = n)
    by (apply float_to_unsigned_in_range; [exact Ht | lia]).
  pose proof (prescaler_of_range n ltac:(lia)) as Hp.
  pose proof (reload_of_range n Hn) as Hrl.
  pose proof (reload_times_prescaler n Hn) as Hprod.
  pose proof (reload_prescaler_loss n Hn) as Hloss.
  set (d := reload_of n * prescaler_of n) in *.
  assert (Hu : uint32 d = d) by (unfold uint32; apply Z.mod_small; lia).
  assert (Hd2 : 2 <= d) by (unfold d; nia).
  assert (Hr : r = (set_DividerInt d s,
                    [Synth_Timer16_SetReloadValue (reload_of n) (prescaler_of n)], false)).
  { unfold r, setWaveformFrequency. rewrite Hw. simpl waveform_eqb. cbv iota.
    rewrite Hcast.
    replace (n <? 2) with false by (symmetry; apply Z.ltb_ge; lia).
    cbv zeta iota. fold d. rewrite Hu. reflexivity. }
  unfold s'. rewrite Hr. simpl fst. simpl snd.
  split; [reflexivity|]. split; [reflexivity|]. split; [reflexivity|].
  unfold printFrequencyAndPeriod. simpl shownFrequency.
  destruct (timer_clock_float undef _ Hfac) as [mk [ek [HK [HK1 HK2]]]].
  unfold tPeriod in Ht. rewrite HK in *.
  destruct (Frequency s) as [sf|sf| |sf mt et]; try discriminate Hpos.
  destruct sf; [discriminate Hpos|].
  destruct (F32.div (S754_finite false mk ek) (S754_finite false mt et))
    as [sq|sq| |sq pq eq] eqn:Eq; try discriminate Ht.
  { simpl in Ht. inversion Ht. lia. }
  pose proof (Binary32Q.div_pos_sign _ _ _ _ _ _ _ Eq) as ->.
  destruct (Binary32Q.trunc_bounds pq eq n Ht) as [_ [HA1 HA2]].
  assert (HD2 : (2 <= inject_Z d)%Q)
    by (change 2%Q with (inject_Z 2); rewrite <- Zle_Qle; lia).
  assert (HD32 : (inject_Z d <= 4294967296)%Q)
    by (change 4294967296%Q with (inject_Z 4294967296); rewrite <- Zle_Qle;
        change (2 ^ 32) with 4294967296 in Hn; lia).
  assert (HDn : (inject_Z d <= inject_Z n)%Q) by (rewrite <- Zle_Qle; lia).
  assert (HnD : (inject_Z n + 1 <= inject_Z d + inject_Z (prescaler_of n))%Q).
  { change 1%Q with (inject_Z 1). rewrite <- !inject_Z_plus, <- Zle_Qle. lia. }
  assert (HG0 : (0 <= inject_Z (prescaler_of n))%Q)
    by (change 0%Q with (inject_Z 0); rewrite <- Zle_Qle; lia).
  assert (HG2 : (2 * inject_Z (prescaler_of n) <= inject_Z d)%Q).
  { change 2%Q with (inject_Z 2). rewrite <- inject_Z_mult, <- Zle_Qle.
    unfold d. nia. }
  assert (Hsmall : (pow2 (-125) == 1 # 42535295865117307932921825928971026432)%Q)
    by reflexivity.
  assert (Hlarge : (pow2 126 == 85070591730234615865843651857942052864)%Q)
    by reflexivity.
  destruct (Binary32Q.div_finite_rel mk ek mt et false pq eq Eq) as [_ [H1a H1b]].
  { rewrite Hsmall. lra. }
  destruct (Binary32Q.of_Z_rel d) as [pp [ep [HP [H3a H3b]]]].
  { change (2 ^ 64) with 18446744073709551616.
    change (2 ^ 32) with 4294967296 in Hn. lia. }
  rewrite HP.
  pose proof (Binary32Q.F2Q_pos pp ep) as HPpos.
  unfold ulp_rel in H3a, H3b.
  destruct (Binary32Q.div_rel mk ek pp ep) as [pf [ef [HF [H4a H4b]]]].
  { rewrite Hsmall. lra. }
  { rewrite Hlarge. lra. }
  exists pf, ef. split; [exact HF|].
  assert (Hinv : (1 / inject_Z (reload_of n)
                  == inject_Z (prescaler_of n) / inject_Z d)%Q).
  { unfold d. rewrite inject_Z_mult. field. split.
    - intros H0. unfold Qeq, inject_Z in H0. cbn [Qnum Qden] in H0. lia.
    - intros H0. unfold Qeq, inject_Z in H0. cbn [Qnum Qden] in H0. lia. }
  rewrite Hinv.
  apply (quantization_arith_gap
           (F2Q (S754_finite false mk ek)) (F2Q (S754_finite false mt et))
           (F2Q (S754_finite false pq eq)) (inject_Z d) (inject_Z (prescaler_of n))
           (F2Q (S754_finite false pp ep)) (F2Q (S754_finite false pf ef)));
    try assumption.
  - apply Binary32Q.F2Q_pos.
  - apply Qlt_le_weak, Binary32Q.F2Q_pos.
  - lra.
  - lra.
Qed.

Lemma quantization_bound_16bit_witness :
  let r := setWaveformFrequency arm_saturate Timer16 info_1Hz in
  let s' := fst (fst r) in
  snd r = false /\
  snd (fst r) = [Synth_Timer16_SetReloadValue (reload_of 36000000) (prescaler_of 36000000)] /\
  DividerInt s' = reload_of 36000000 * prescaler_of 36000000 /\
  exists p e,
    shownFrequency (printFrequencyAndPeriod arm_saturate log10f_at_5 s' false)
      = S754_finite false p e /\
    (Qabs (F2Q (S754_finite false p e) - F2Q (Frequency info_1Hz))
       / F2Q (Frequency info_1Hz)
     <= 1 / inject_Z (reload_of 36000000) + (1 # 1048576))%Q.
Proof.
  apply (quantization_bound_16bit arm_saturate log10f_at_5 info_1Hz 36000000 false).
  - reflexivity.
  - simpl. right. left. reflexivity.
  - reflexivity.
  - vm_compute. reflexivity.
  - split; [discriminate | reflexivity].
Defined.

(** ** The slider round trip *)








(** What the positions of the two examples are: 0 for the slider value
    0 of the 10 Hz range, and 36 for the slider value 37 of the range
    Hz. *)
Lemma slider_round_trip_examples :
  slider_round_trip arm_saturate Timer32 pow_at_1 log10f_at_10 0 page_200Hz = Some 0 /\
  slider_round_trip arm_saturate Timer32 pow_at_037 log10f_at_037 37 page_Hz = Some 36.
Proof. split; vm_compute; reflexivity. Qed.

(** The condition at the slider value 0 of the 10 Hz range is needed: with
    a log10f (10) one unit in the last place below 1 the product with
    100 is below 100, its integral part is 99, and the subtraction of
    100 wraps to 65535. *)
Lemma slider_round_trip_wraps :
  (Qabs (F2Q (log10f_low_at_10 (pow_at_1 (F32.of_Z 10) (slider_exponent true 0)))
         - F2Q (slider_exponent true 0)) <= 1 # 16777216)%Q /\
  slider_round_trip arm_saturate Timer32 pow_at_1 log10f_low_at_10 0 page_200Hz
  = Some 65535.
Proof. split; [vm_compute; discriminate | vm_compute; reflexivity]. Qed.
